(** * The flow-query handler of the network observability console plugin

    A shallow embedding of [pkg/handler/flows.go]: the filter parser
    ([parseFilters]), the parameter extraction ([getStartTime], [getLimit])
    and the fan-out orchestration ([getFlows]), together with the pieces of
    the Go standard library they call. *)

From Stdlib Require Import ZArith Ascii String List Lia DecimalString.
From Stdlib Require Import Permutation DecimalPos.
From stdpp Require Import base strings gmap list.

Import ListNotations.
Local Open Scope string_scope.
Local Open Scope list_scope.
Local Open Scope Z_scope.

(** ** Go standard library *)

Module Go.

(** A Go [string] is a sequence of bytes: [String.string] over 8-bit
    [ascii].  A Go [error] is observed by the handler only through its
    [Error()] text, except for the [Err] field of [*strconv.NumError]. *)

(** [strings.Split(s, sep)] for a one-byte separator, the only way the
    handler calls it: the pieces of [s] between the occurrences of [sep],
    in order; a string without [sep] is returned whole (also the empty
    one), so the result always has [1 + count sep s] elements. *)
Fixpoint Split (s : string) (sep : ascii) : list string :=
  match s with
  | EmptyString => [EmptyString]
  | String c s' =>
      if Ascii.eqb c sep then EmptyString :: Split s' sep
      else match Split s' sep with
           | piece :: pieces => String c piece :: pieces
           | [] => [String c EmptyString]
           end
  end.

(** [strings.Count(s, sep)] for a one-byte separator. *)
Fixpoint Count (s : string) (sep : ascii) : nat :=
  match s with
  | EmptyString => O
  | String c s' => if Ascii.eqb c sep then S (Count s' sep) else Count s' sep
  end.

(** [net/url]: [ishex] and [unhex]. *)
Definition ishex (c : ascii) : bool :=
  let n := N_of_ascii c in
  ((48 <=? n) && (n <=? 57) || (97 <=? n) && (n <=? 102)
   || (65 <=? n) && (n <=? 70))%N.

Definition unhex (c : ascii) : N :=
  let n := N_of_ascii c in
  (if (48 <=? n) && (n <=? 57) then n - 48
   else if (97 <=? n) && (n <=? 102) then n - 97 + 10
   else if (65 <=? n) && (n <=? 70) then n - 65 + 10
   else 0)%N.

(** The first three bytes of [s] (fewer when [s] is shorter): the text an
    [url.EscapeError] carries. *)
Definition first3 (s : string) : string := substring 0 3 s.

(** The checking pass of [url.unescape] in query-component mode: every
    ['%'] must be followed by two hexadecimal digits.  Returns the
    offending text on failure. *)
Fixpoint unescape_check (s : string) : option string :=
  match s with
  | EmptyString => None
  | String c s' =>
      if Ascii.eqb c "%" then
        match s' with
        | String h (String l rest) =>
            if ishex h && ishex l then unescape_check rest
            else Some (first3 s)
        | _ => Some (first3 s)
        end
      else unescape_check s'
  end.

(** The rewriting pass of [url.unescape] in query-component mode:
    [%XY] becomes the byte [16 * X + Y] and ['+'] becomes a space. *)
Fixpoint unescape_write (s : string) : string :=
  match s with
  | EmptyString => EmptyString
  | String c s' =>
      if Ascii.eqb c "%" then
        match s' with
        | String h (String l rest) =>
            String (ascii_of_N (N.lor (N.shiftl (unhex h) 4) (unhex l)))
                   (unescape_write rest)
        | _ => EmptyString (* excluded by the checking pass *)
        end
      else if Ascii.eqb c "+" then String " " (unescape_write s')
      else String c (unescape_write s')
  end.

(** Go error values, as far as the handler meets them: [url.EscapeError],
    [*strconv.NumError] (whose [Err] is one of the two sentinel errors of
    [strconv]) and the [*errors.errorString] of [errors.New]. *)
Inductive sentinel : Type := ErrSyntax | ErrRange.

Inductive error : Type :=
| EscapeError (s : string)
| NumError (Func Num : string) (Err : sentinel)
| errorString (s : string).

Section ErrorText.
(** [strconv.Quote], whose tables are not modelled. *)
Variable Quote : string -> string.

(** The [Error()] method of each error type. *)
Definition Error (e : error) : string :=
  match e with
  | EscapeError s => "invalid URL escape " +:+ Quote s
  | NumError Func Num Err =>
      "strconv." +:+ Func +:+ ": " +:+ "parsing " +:+ Quote Num +:+ ": "
      +:+ match Err with
         | ErrSyntax => "invalid syntax"
         | ErrRange => "value out of range"
         end
  | errorString s => s
  end.
End ErrorText.

(** [url.QueryUnescape]. *)
Definition QueryUnescape (s : string) : string * option error :=
  match unescape_check s with
  | Some bad => ("", Some (EscapeError bad))
  | None => (unescape_write s, None)
  end.

(** [strconv.ParseUint(s, 10, 64)]: the digit loop, with its two
    overflow tests, then the function.  The first component of the
    result is the value, the second the [Err] of the [NumError]. *)
Definition maxUint64 : Z := 2 ^ 64 - 1.

Definition isdigit (c : ascii) : bool :=
  let n := N_of_ascii c in ((48 <=? n) && (n <=? 57))%N.

Fixpoint ParseUint_loop (s : string) (n : Z) : Z * option sentinel :=
  match s with
  | EmptyString => (n, None)
  | String c s' =>
      if isdigit c then
        let d := Z.of_N (N_of_ascii c) - 48 in
        if maxUint64 / 10 + 1 <=? n then (maxUint64, Some ErrRange)
        else
          let n1 := n * 10 + d in
          if maxUint64 <? n1 then (maxUint64, Some ErrRange)
          else ParseUint_loop s' n1
      else (0, Some ErrSyntax)
  end.

Definition ParseUint (s : string) : Z * option sentinel :=
  match s with
  | EmptyString => (0, Some ErrSyntax)
  | _ => ParseUint_loop s 0
  end.

(** [strconv.ParseInt(s, 10, 64)]. *)
Definition ParseInt (s0 : string) : Z * option error :=
  match s0 with
  | EmptyString => (0, Some (NumError "ParseInt" s0 ErrSyntax))
  | String c rest =>
      let neg := Ascii.eqb c "-" in
      let s := if Ascii.eqb c "+" || neg then rest else s0 in
      let '(un, err) := ParseUint s in
      match err with
      | Some ErrSyntax =>
          (0, Some (NumError "ParseInt" s0 ErrSyntax))
      | _ =>
          let cutoff := 2 ^ 63 in
          if negb neg && (cutoff <=? un) then
            (cutoff - 1, Some (NumError "ParseInt" s0 ErrRange))
          else if neg && (cutoff <? un) then
            (- cutoff, Some (NumError "ParseInt" s0 ErrRange))
          else (if neg then - un else un, None)
      end
  end.

(** [strconv.FormatInt(i, 10)]. *)
Definition FormatInt (i : Z) : string :=
  NilZero.string_of_int (Z.to_int i).

(** Arithmetic on [int64] wraps around. *)
Definition int64 (z : Z) : Z := (z + 2 ^ 63) mod 2 ^ 64 - 2 ^ 63.

(** [url.Values] is [map[string][]string]; [Get] is the first value
    stored under the key, the empty string when there is none. *)
Definition Get (v : gmap string (list string)) (key : string) : string :=
  match v !! key with
  | Some (first :: _) => first
  | _ => ""
  end.

(** [net/http] status codes. *)
Definition StatusOK : Z := 200.
Definition StatusBadRequest : Z := 400.

End Go.

(** ** The handler: [pkg/handler/flows.go] *)

Module Handler.
Import Go.

Definition startTimeKey : string := "startTime".
Definition endTimeKey : string := "endTime".
Definition timeRangeKey : string := "timeRange".
Definition limitKey : string := "limit".
Definition reporterKey : string := "reporter".
Definition filtersKey : string := "filters".

(** [type keyValues = []string] *)
Definition keyValues : Type := list string.

(** [parseFilters]: both [for ... range] loops append to a slice that
    starts out nil. *)
Definition parseFilters (raw : string)
  : list (list keyValues) * option error :=
  match QueryUnescape raw with
  | (_, Some err) => ([], Some err)
  | (decoded, None) =>
      let groups := Split decoded "|" in
      let parsed :=
        fold_left
          (fun (parsed : list (list keyValues)) (group : string) =>
             let filters := Split group "&" in
             let andFilters :=
               fold_left
                 (fun (andFilters : list keyValues) (filter : string) =>
                    let pair := Split filter "=" in
                    if Nat.eqb (length pair) 2 then andFilters ++ [pair]
                    else andFilters)
                 filters [] in
             parsed ++ [andFilters])
          groups [] in
      (parsed, None)
  end.

Section Requests.
Variable Quote : string -> string.
(** [time.Now().Unix()], an [int64]. *)
Variable now : Z.

Definition getStartTime (params : gmap string (list string))
  : string * option error :=
  let start := Get params startTimeKey in
  if Nat.eqb (String.length start) 0 then
    let tr := Get params timeRangeKey in
    if Nat.ltb 0 (String.length tr) then
      match ParseInt tr with
      | (_, Some err) =>
          ("", Some (errorString
                       ("Could not parse time range: " +:+ Error Quote err)))
      | (r, None) => (FormatInt (int64 (now - r)), None)
      end
    else (start, None)
  else (start, None).

(** [getLimit] returns the limit as a string and as an [int]. *)
Definition getLimit (params : gmap string (list string))
  : string * Z * option error :=
  let limit := Get params limitKey in
  if Nat.ltb 0 (String.length limit) then
    match ParseInt limit with
    | (_, Some err) =>
        ("", 0, Some (errorString
                        ("Could not parse limit: " +:+ Error Quote err)))
    | (l, None) => (limit, l, None)
    end
  else (limit, 0, None).
End Requests.

(** The collaborators of [getFlows] that are declared in other files or
    packages of the repository: the stream merger and the query builder
    of [pkg/loki], the client of [pkg/httpclient], and the two fetch
    functions of this package.  A method that updates its receiver
    returns the updated receiver. *)
Class Collaborators : Type := {
  Config : Type;                      (* loki.Config *)
  Caller : Type;                      (* httpclient.Caller *)
  Merger : Type;                      (* *loki.StreamMerger *)
  Builder : Type;                     (* *loki.FlowQueryBuilder *)
  Response : Type;                    (* model.AggregatedQueryResponse *)
  NewStreamMerger : Z -> Merger;
  merger_Get : Merger -> Response;
  NewFlowQueryBuilder :
    Config -> string -> string -> string -> string -> Builder;
  Filters : Builder -> list keyValues -> Builder * option error;
  Build : Builder -> string;
  fetchSingle : Caller -> string -> Merger -> Merger * (Z * option error);
  fetchParallel :
    Caller -> list string -> Merger -> Merger * (Z * option error)
}.

(** The outbound calls of one request, in the order they are made.  The
    log is ghost state: [getFlows] calls a fetch function in two places
    only, and the model records each call next to its result. *)
Inductive Call : Type :=
| FetchSingle (query : string)
| FetchParallel (queries : list string).

Section Flows.
Context `{Collaborators}.
Variable Quote : string -> string.
Variable now : Z.

(** The loop of the fan-out branch: one fresh builder per group, the
    first rejected group ends the request. *)
Fixpoint buildQueries (cfg : Config) (start end_ limit reporter : string)
    (filterGroups : list (list keyValues)) (queries : list string)
  : error + list string :=
  match filterGroups with
  | [] => inr queries
  | group :: rest =>
      let qb := NewFlowQueryBuilder cfg start end_ limit reporter in
      match Filters qb group with
      | (_, Some err) => inl err
      | (qb, None) =>
          buildQueries cfg start end_ limit reporter rest
                       (queries ++ [Build qb])
      end
  end.

(** The builder of the single-query branch. *)
Definition buildSingle (cfg : Config) (start end_ limit reporter : string)
    (filterGroups : list (list keyValues)) : error + string :=
  let qb := NewFlowQueryBuilder cfg start end_ limit reporter in
  if Nat.ltb 0 (length filterGroups) then
    match Filters qb (nth 0 filterGroups []) with
    | (_, Some err) => inl err
    | (qb, None) => inr (Build qb)
    end
  else inr (Build qb).

(** Lines 126 to 160 of [getFlows]: what happens once the parameters
    are read. *)
Definition runQueries (cfg : Config) (client : Caller)
    (start end_ limit reporter : string) (reqLimit : Z)
    (filterGroups : list (list keyValues))
  : list Call * (option Response * Z * option error) :=
  let merger := NewStreamMerger reqLimit in
  if Nat.ltb 1 (length filterGroups) then
    match buildQueries cfg start end_ limit reporter filterGroups [] with
    | inl err =>
        ([], (None, StatusBadRequest,
              Some (errorString
                      ("Can't build query: " +:+ Error Quote err))))
    | inr queries =>
        match fetchParallel client queries merger with
        | (_, (code, Some err)) =>
            ([FetchParallel queries],
             (None, code,
              Some (errorString
                      ("Error while fetching flows from Loki: "
                       +:+ Error Quote err))))
        | (merger, (_, None)) =>
            ([FetchParallel queries],
             (Some (merger_Get merger), StatusOK, None))
        end
    end
  else
    match buildSingle cfg start end_ limit reporter filterGroups with
    | inl err => ([], (None, StatusBadRequest, Some err))
    | inr query =>
        match fetchSingle client query merger with
        | (_, (code, Some err)) =>
            ([FetchSingle query],
             (None, code,
              Some (errorString
                      ("Error while fetching flows from Loki: "
                       +:+ Error Quote err))))
        | (merger, (_, None)) =>
            ([FetchSingle query],
             (Some (merger_Get merger), StatusOK, None))
        end
    end.

Definition getFlows (cfg : Config) (client : Caller)
    (params : gmap string (list string))
  : list Call * (option Response * Z * option error) :=
  match getStartTime Quote now params with
  | (_, Some err) => ([], (None, StatusBadRequest, Some err))
  | (start, None) =>
      let end_ := Get params endTimeKey in
      match getLimit Quote params with
      | (_, _, Some err) => ([], (None, StatusBadRequest, Some err))
      | (limit, reqLimit, None) =>
          let reporter := Get params reporterKey in
          let rawFilters := Get params filtersKey in
          match parseFilters rawFilters with
          | (_, Some err) => ([], (None, StatusBadRequest, Some err))
          | (filterGroups, None) =>
              runQueries cfg client start end_ limit reporter reqLimit
                         filterGroups
          end
      end
  end.
End Flows.

(** What a request leaves behind, besides the outbound calls: the
    response written and the call metric observed.  [writeError],
    [writeJSON] and [metrics.ObserveHTTPCall] are declared in other files;
    each call of one of them is recorded as an event, with its arguments
    ([flows] is a pointer, nil on failure). *)
Inductive Event `{Collaborators} : Type :=
| WriteError (code : Z) (message : string)
| WriteJSON (code : Z) (flows : option Response)
| ObserveHTTPCall (handler : string) (code : Z) (startTime : Z).

Section Http.
Context `{Collaborators}.
Variable Quote : string -> string.
(** [newLokiClient], declared in another file of the package. *)
Variable newLokiClient : Config -> Caller.

(** The exported [GetFlows] (lines 85 to 107): the client is made once,
    the function returned serves each request.  [startTime] is the
    [time.Now()] of the handler, [now] the one of [getStartTime], and
    [params] is [r.URL.Query()].  The variable [code] of the closure is
    the one [getFlows]'s result is assigned to, so the deferred metric
    sees the final status.  Debug logging is left out. *)
Definition GetFlows (cfg : Config)
  : Z -> Z -> gmap string (list string) -> list Call * list Event :=
  let lokiClient := newLokiClient cfg in
  fun (startTime now : Z) (params : gmap string (list string)) =>
    match getFlows Quote now cfg lokiClient params with
    | (calls, (_, code, Some err)) =>
        (calls,
         [WriteError code (Error Quote err);
          ObserveHTTPCall "GetFlows" code startTime])
    | (calls, (flows, _, None)) =>
        let code := StatusOK in
        (calls,
         [WriteJSON code flows; ObserveHTTPCall "GetFlows" code startTime])
    end.
End Http.

End Handler.


(** ** Collaborators, as the specification describes them

    [pkg/loki], [pkg/httpclient] and the two fetch functions lie outside
    [flows.go].  What the specification says of them is written out here:
    the merger with its cap, and collaborators on which [getFlows] can be
    run. *)

Module Loki.
Import Go Handler.

(** Modelled from the spec: the merger state of [loki.StreamMerger]
    (sections 3 and 4.4), which owns the aggregate result limit and the
    records accumulated so far, in arrival order.  A record is its raw
    log line. *)
Record StreamMerger : Type := {
  reqLimit : Z;
  merged : list string
}.

(** Modelled from the spec: [loki.NewStreamMerger], constructed with a
    maximum record count, 0 meaning unbounded. *)
Definition NewStreamMerger (reqLimit : Z) : StreamMerger :=
  {| reqLimit := reqLimit; merged := [] |}.

(** Modelled from the spec: whether the cap of [loki.StreamMerger] is
    reached. *)
Definition capReached (m : StreamMerger) : bool :=
  (0 <? reqLimit m) && (reqLimit m <=? Z.of_nat (length (merged m))).

(** The invariant of the merger: under a positive limit, the records held
    never outnumber it. *)
Definition withinCap (m : StreamMerger) : Prop :=
  0 < reqLimit m -> Z.of_nat (length (merged m)) <= reqLimit m.

(** Modelled from the spec: the arrival of one record at
    [loki.StreamMerger].  Once the cap is reached the record is not added;
    a record already present is not added again; any other record is
    added after those that arrived before it. *)
Definition addRecord (m : StreamMerger) (r : string) : StreamMerger :=
  if capReached m then m
  else if bool_decide (r ∈ merged m) then m
  else {| reqLimit := reqLimit m; merged := merged m ++ [r] |}.

(** Modelled from the spec: [StreamMerger.Add], which accepts one raw
    result batch. *)
Definition Add (m : StreamMerger) (batch : list string) : StreamMerger :=
  fold_left addRecord batch m.

(** Modelled from the spec: [model.AggregatedQueryResponse], the envelope
    around the bounded set of merged records. *)
Record AggregatedQueryResponse : Type := { result : list string }.

(** Modelled from the spec: [StreamMerger.Get], the read accessor of the
    final aggregated result. *)
Definition Get (m : StreamMerger) : AggregatedQueryResponse :=
  {| result := merged m |}.

(** Modelled from the spec: the query caller of [pkg/httpclient] (section
    6).  Given a built query it returns a raw result payload or an error
    carrying a status code.  [completion] is the order in which queries
    dispatched together complete. *)
Record Client : Type := {
  call : string -> (Z * error) + list string;
  completion : list string -> list string
}.

(** Modelled from the spec: [fetchSingle] (section 4.3) executes the query
    and feeds the raw result into the merger. *)
Definition fetchSingle (client : Client) (query : string) (m : StreamMerger)
  : StreamMerger * (Z * option error) :=
  match call client query with
  | inl (code, err) => (m, (code, Some err))
  | inr payload => (Add m payload, (StatusOK, None))
  end.

(** Modelled from the spec: the collection loop of [fetchParallel]
    (section 4.3).  Each result is fed into the merger as it completes;
    the first error wins. *)
Fixpoint collect (client : Client) (completed : list string)
    (m : StreamMerger) : StreamMerger * (Z * option error) :=
  match completed with
  | [] => (m, (StatusOK, None))
  | query :: rest =>
      match call client query with
      | inl (code, err) => (m, (code, Some err))
      | inr payload => collect client rest (Add m payload)
      end
  end.

(** Modelled from the spec: [fetchParallel] (section 4.3) dispatches all
    the queries and collects their results in completion order. *)
Definition fetchParallel (client : Client) (queries : list string)
    (m : StreamMerger) : StreamMerger * (Z * option error) :=
  collect client (completion client queries) m.

(** Modelled from the spec: [loki.Config], of which only the filter keys
    the builder knows matter here. *)
Record Config : Type := { knownKeys : list string }.

(** Modelled from the spec: the state of [loki.FlowQueryBuilder] (section
    2): the base parameters and one group of filters. *)
Record FlowQueryBuilder : Type := {
  config : Config;
  startTime : string;
  endTime : string;
  limit : string;
  reporter : string;
  filters : list keyValues
}.

(** Modelled from the spec: [loki.NewFlowQueryBuilder]. *)
Definition NewFlowQueryBuilder (cfg : Config)
    (start end_ limit reporter : string) : FlowQueryBuilder :=
  {| config := cfg; startTime := start; endTime := end_; limit := limit;
     reporter := reporter; filters := [] |}.

(** Modelled from the spec: [FlowQueryBuilder.Filters], which rejects a
    group holding an unknown key (section 7).  The text of the error is
    not specified. *)
Definition Filters (qb : FlowQueryBuilder) (group : list keyValues)
  : FlowQueryBuilder * option error :=
  match
    List.find
      (fun kv => negb (bool_decide (nth 0 kv "" ∈ knownKeys (config qb))))
      group
  with
  | Some kv => (qb, Some (errorString ("unknown filter key: " +:+ nth 0 kv "")))
  | None =>
      ({| config := config qb; startTime := startTime qb;
          endTime := endTime qb; limit := limit qb; reporter := reporter qb;
          filters := filters qb ++ group |}, None)
  end.

(** Modelled from the spec: [FlowQueryBuilder.Build], one query string
    from the base parameters and the filters.  The query language is not
    specified; the text keeps every field apart. *)
Definition Build (qb : FlowQueryBuilder) : string :=
  "start=" +:+ startTime qb +:+ ";end=" +:+ endTime qb
  +:+ ";limit=" +:+ limit qb +:+ ";reporter=" +:+ reporter qb
  +:+ fold_right
        (fun kv acc => ";" +:+ nth 0 kv "" +:+ "=" +:+ nth 1 kv "" +:+ acc)
        "" (filters qb).

#[export] Instance collaborators : Collaborators := {|
  Handler.Config := Config;
  Handler.Caller := Client;
  Handler.Merger := StreamMerger;
  Handler.Builder := FlowQueryBuilder;
  Handler.Response := AggregatedQueryResponse;
  Handler.NewStreamMerger := NewStreamMerger;
  Handler.merger_Get := Get;
  Handler.NewFlowQueryBuilder := NewFlowQueryBuilder;
  Handler.Filters := Filters;
  Handler.Build := Build;
  Handler.fetchSingle := fetchSingle;
  Handler.fetchParallel := fetchParallel
|}.

End Loki.


(** ** What the handler's words mean *)

Module Spec.
Import Go Handler.

(** The filter parser as section 4.1 words it: keep only the candidates
    whose split on ['='] yields exactly two non-empty parts. *)
Definition twoNonEmptyParts (pair : list string) : bool :=
  match pair with
  | [key; value] => negb (String.eqb key "") && negb (String.eqb value "")
  | _ => false
  end.

Definition parseFilters_spec (raw : string)
  : list (list keyValues) * option error :=
  match QueryUnescape raw with
  | (_, Some err) => ([], Some err)
  | (decoded, None) =>
      (map (fun group =>
              List.filter twoNonEmptyParts
                (map (fun filter => Split filter "=") (Split group "&")))
           (Split decoded "|"),
       None)
  end.

(** The pairs the code keeps from one group: the candidates with exactly
    one ['='], each split at it. *)
Definition keptPairs (group : string) : list keyValues :=
  map (fun filter => Split filter "=")
      (List.filter (fun filter => Nat.eqb (Count filter "=") 1)
                   (Split group "&")).

(** The grammar of section 6, written out: [pair := key '=' value],
    [group := pair ('&' pair)*], [pairs := group ('|' group)*]. *)
Definition join (sep : ascii) (pieces : list string) : string :=
  match pieces with
  | [] => ""
  | first :: rest =>
      first +:+ fold_right (fun piece acc => String sep (piece +:+ acc)) "" rest
  end.

Definition renderPair (kv : string * string) : string :=
  fst kv +:+ String "=" (snd kv).

Definition renderGroup (group : list (string * string)) : string :=
  join "&" (map renderPair group).

Definition renderFilters (groups : list (list (string * string))) : string :=
  join "|" (map renderGroup groups).

(** Text free of the three delimiters and of the two bytes that
    [url.QueryUnescape] rewrites. *)
Definition plain (s : string) : bool :=
  Nat.eqb (Count s "|") 0 && Nat.eqb (Count s "&") 0
  && Nat.eqb (Count s "=") 0 && Nat.eqb (Count s "%") 0
  && Nat.eqb (Count s "+") 0.

Definition plainPair (kv : string * string) : Prop :=
  plain (fst kv) = true /\ plain (snd kv) = true.

(** A parsed pair, read back as key and value. *)
Definition pairOf (pair : keyValues) : string * string :=
  (nth 0 pair "", nth 1 pair "").

(** Text free of the three delimiters of the filter grammar. *)
Definition undelimited (s : string) : Prop :=
  Count s "|" = 0%nat /\ Count s "&" = 0%nat /\ Count s "=" = 0%nat.

(** The text after a ['%'] does not begin with two hexadecimal digits. *)
Definition cutShort (tail : string) : bool :=
  match tail with
  | String h (String l _) => negb (ishex h && ishex l)
  | _ => true
  end.

(** Decimal syntax: an optional sign, then one or more decimal digits. *)
Fixpoint allDigits (s : string) : bool :=
  match s with
  | EmptyString => true
  | String c rest => isdigit c && allDigits rest
  end.

Definition decimalSyntax (s : string) : bool :=
  match s with
  | EmptyString => false
  | String c rest =>
      if Ascii.eqb c "+" || Ascii.eqb c "-"
      then negb (String.eqb rest "") && allDigits rest
      else allDigits s
  end.

(** The decimal numeral of an integer of any size. *)
Definition numeral (z : Z) : string := NilZero.string_of_int (Z.to_int z).

(** A builder accepts a group when [Filters] reports no error. *)
Definition accepts `{Collaborators} (qb : Builder) (group : list keyValues)
  : Prop :=
  snd (Filters qb group) = None.


(** What [getFlows] answers once a fetch has returned (lines 138 to 141,
    152 to 155 and 158 to 160): on an error, no response, the code of
    the fetch and the prefixed error; otherwise what [merger.Get()] gives
    on the merger the fetch has fed, with status 200. *)
Definition answer `{Collaborators} (Quote : string -> string)
    (outcome : Merger * (Z * option error))
  : option Response * Z * option error :=
  match outcome with
  | (_, (code, Some err)) =>
      (None, code,
       Some (errorString
               ("Error while fetching flows from Loki: "
                +:+ Error Quote err)))
  | (merger, (_, None)) => (Some (merger_Get merger), StatusOK, None)
  end.

End Spec.

(** ** Concrete requests *)

Module Demo.
Import Go Handler.

(** [strconv.Quote] on text that needs no escaping: the text between
    double quotes. *)
Definition quotePlain (s : string) : string :=
  String (ascii_of_nat 34) (s +:+ String (ascii_of_nat 34) "").

(** Three batches of five records each. *)
Definition threeBatches : list (list string) :=
  [["r01"; "r02"; "r03"; "r04"; "r05"];
   ["r06"; "r07"; "r08"; "r09"; "r10"];
   ["r11"; "r12"; "r13"; "r14"; "r15"]].

(** [startTime=100&timeRange=abc] *)
Definition startAndBadRange : gmap string (list string) :=
  <[startTimeKey := ["100"]]> (<[timeRangeKey := ["abc"]]> ∅).

(** [timeRange=abc] *)
Definition badRange : gmap string (list string) :=
  <[timeRangeKey := ["abc"]]> ∅.

(** [timeRange=60] *)
Definition lastMinute : gmap string (list string) :=
  <[timeRangeKey := ["60"]]> ∅.

(** [limit=1x] *)
Definition badLimit : gmap string (list string) :=
  <[limitKey := ["1x"]]> ∅.

(** [filters=a=1|b=2], [filters=a=1], [filters=a=1|d=2], [filters=d=2]
    and a request without parameters. *)
Definition twoGroups : gmap string (list string) :=
  <[filtersKey := ["a=1|b=2"]]> ∅.

Definition oneGroup : gmap string (list string) :=
  <[filtersKey := ["a=1"]]> ∅.

Definition unknownKeyOfTwo : gmap string (list string) :=
  <[filtersKey := ["a=1|d=2"]]> ∅.

Definition unknownKey : gmap string (list string) :=
  <[filtersKey := ["d=2"]]> ∅.

Definition noParameters : gmap string (list string) := ∅.

(** A configuration that knows the keys [a], [b] and [c]. *)
Definition cfg : Loki.Config := {| Loki.knownKeys := ["a"; "b"; "c"] |}.

(** A backend that answers every query with one record, in dispatch
    order. *)
Definition healthy : Loki.Client :=
  {| Loki.call := fun query => inr ["flow of " +:+ query];
     Loki.completion := fun queries => queries |}.

(** A backend that is unavailable. *)
Definition unavailable : Loki.Client :=
  {| Loki.call := fun query => inl (503, errorString "unavailable");
     Loki.completion := fun queries => queries |}.


(** [filters=a=1%], whose escape is cut short. *)
Definition cutEscape : gmap string (list string) :=
  <[filtersKey := ["a=1%"]]> ∅.

(** [limit=-5] *)
Definition negativeLimit : gmap string (list string) :=
  <[limitKey := ["-5"]]> ∅.

(** [filters=a=1|], with a trailing bar. *)
Definition trailingBar : gmap string (list string) :=
  <[filtersKey := ["a=1|"]]> ∅.

(** [limit=9223372036854775808], one more than the largest [int64]. *)
Definition hugeLimit : gmap string (list string) :=
  <[limitKey := ["9223372036854775808"]]> ∅.

End Demo.

(** ** Facts about the library functions *)

Section SplitFacts.
Import Go.

Example Split_examples :
  Split "a=1&b=2|c=3" "|" = ["a=1&b=2"; "c=3"]
  /\ Split "" "|" = [""]
  /\ Split "|" "|" = [""; ""]
  /\ Split "a=b=c" "=" = ["a"; "b"; "c"].
Proof. repeat split. Qed.

Example QueryUnescape_examples :
  QueryUnescape "a%3D1+2" = ("a=1 2", None)
  /\ QueryUnescape "a%3" = ("", Some (EscapeError "%3"))
  /\ QueryUnescape "%zz12" = ("", Some (EscapeError "%zz")).
Proof. repeat split. Qed.

Example ParseInt_examples :
  ParseInt "60" = (60, None)
  /\ ParseInt "-12" = (-12, None)
  /\ ParseInt "+7" = (7, None)
  /\ ParseInt "" = (0, Some (NumError "ParseInt" "" ErrSyntax))
  /\ ParseInt "1_0" = (0, Some (NumError "ParseInt" "1_0" ErrSyntax))
  /\ ParseInt "-9223372036854775808" = (-9223372036854775808, None)
  /\ ParseInt "9223372036854775808"
     = (9223372036854775807,
        Some (NumError "ParseInt" "9223372036854775808" ErrRange)).
Proof. repeat split. Qed.

Example FormatInt_examples :
  FormatInt 0 = "0" /\ FormatInt (-12) = "-12"
  /\ FormatInt 1699999940 = "1699999940".
Proof. repeat split. Qed.

Lemma Split_not_nil (s : string) (sep : ascii) : Split s sep <> [].
Proof.
  induction s as [|c s IH]; simpl; [discriminate|].
  destruct (Ascii.eqb c sep); [discriminate|].
  destruct (Split s sep); discriminate.
Qed.

Lemma Split_length (s : string) (sep : ascii) :
  length (Split s sep) = S (Count s sep).
Proof.
  induction s as [|c s IH]; simpl; [reflexivity|].
  destruct (Ascii.eqb c sep); simpl; [now rewrite IH|].
  pose proof (Split_not_nil s sep) as Hne.
  destruct (Split s sep); [contradiction|exact IH].
Qed.

Lemma Count_app (s1 s2 : string) (sep : ascii) :
  Count (s1 +:+ s2) sep = (Count s1 sep + Count s2 sep)%nat.
Proof.
  induction s1 as [|c s1 IH]; simpl; [reflexivity|].
  destruct (Ascii.eqb c sep); simpl; now rewrite IH.
Qed.

Lemma Split_without (s : string) (sep : ascii) :
  Count s sep = 0%nat -> Split s sep = [s].
Proof.
  induction s as [|c s IH]; simpl; [reflexivity|].
  destruct (Ascii.eqb c sep); [discriminate|].
  intros Hc. now rewrite (IH Hc).
Qed.

Lemma Split_at_first (s1 s2 : string) (sep : ascii) :
  Count s1 sep = 0%nat ->
  Split (s1 +:+ String sep s2) sep = s1 :: Split s2 sep.
Proof.
  induction s1 as [|c s1 IH]; simpl.
  - intros _. now rewrite Ascii.eqb_refl.
  - destruct (Ascii.eqb c sep); [discriminate|].
    intros Hc. now rewrite (IH Hc).
Qed.

(** A string with exactly one separator splits into what is before it and
    what is after it; either may be empty. *)
Lemma Split_one (s : string) (sep : ascii) :
  Count s sep = 1%nat ->
  exists before after,
    s = before +:+ String sep after /\ Split s sep = [before; after]
    /\ Count before sep = 0%nat /\ Count after sep = 0%nat.
Proof.
  induction s as [|c s IH]; simpl; [discriminate|].
  destruct (Ascii.eqb c sep) eqn:Hc.
  - intros Hn. apply Ascii.eqb_eq in Hc. subst c.
    exists "", s. injection Hn as Hn.
    rewrite (Split_without _ _ Hn). auto.
  - intros Hn. destruct (IH Hn) as (b & a & -> & HS & Hb & Ha).
    exists (String c b), a. rewrite HS. simpl. rewrite Hc. auto.
Qed.

Lemma Split_two_iff (s : string) (sep : ascii) :
  Nat.eqb (length (Split s sep)) 2 = Nat.eqb (Count s sep) 1.
Proof. now rewrite Split_length. Qed.

End SplitFacts.

Section JoinFacts.
Import Go Spec.

Lemma append_empty_r (s : string) : s +:+ "" = s.
Proof.
  induction s as [|c s IH]; [reflexivity|].
  change (String c s +:+ "") with (String c (s +:+ "")). now rewrite IH.
Qed.

Lemma join_cons (sep : ascii) (first second : string) (rest : list string) :
  join sep (first :: second :: rest)
  = first +:+ String sep (join sep (second :: rest)).
Proof. reflexivity. Qed.

(** Splitting undoes joining, when no piece holds the separator. *)
Lemma Split_join (sep : ascii) (pieces : list string) :
  pieces <> [] ->
  Forall (fun piece => Count piece sep = 0%nat) pieces ->
  Split (join sep pieces) sep = pieces.
Proof.
  destruct pieces as [|first rest]; [contradiction|intros _].
  revert first. induction rest as [|second rest IH]; intros first Hall.
  - change (join sep [first]) with (first +:+ "").
    rewrite append_empty_r. apply Split_without. now inversion Hall.
  - rewrite join_cons. inversion Hall as [|? ? Hfirst Hrest]; subst.
    rewrite (Split_at_first _ _ _ Hfirst). f_equal. now apply IH.
Qed.

(** A byte other than the separator occurs in a joined string as often as
    in its pieces: not at all when it is in none of them. *)
Lemma Count_join (sep c : ascii) (pieces : list string) :
  Ascii.eqb sep c = false ->
  Forall (fun piece => Count piece c = 0%nat) pieces ->
  Count (join sep pieces) c = 0%nat.
Proof.
  intros Hsep. destruct pieces as [|first rest]; [reflexivity|].
  revert first. induction rest as [|second rest IH]; intros first Hall.
  - change (join sep [first]) with (first +:+ "").
    rewrite append_empty_r. now inversion Hall.
  - rewrite join_cons, Count_app. inversion Hall as [|? ? Hfirst Hrest]; subst.
    rewrite Hfirst. simpl. rewrite Hsep. now apply IH.
Qed.

End JoinFacts.

Section UnescapeFacts.
Import Go.

Lemma unescape_check_without (s : string) :
  Count s "%" = 0%nat -> unescape_check s = None.
Proof.
  induction s as [|c s IH]; [reflexivity|].
  cbn [Count unescape_check].
  destruct (Ascii.eqb c "%"); [discriminate|exact IH].
Qed.

Lemma unescape_write_without (s : string) :
  Count s "%" = 0%nat ->
  Count (unescape_write s) "%" = 0%nat /\ Count (unescape_write s) "+" = 0%nat.
Proof.
  induction s as [|c s IH]; [split; reflexivity|].
  cbn [Count unescape_write].
  destruct (Ascii.eqb c "%") eqn:Hp; [discriminate|].
  intros Hs. destruct (IH Hs) as [IHp IHq].
  destruct (Ascii.eqb c "+") eqn:Hq; cbn [Count].
  - split; assumption.
  - rewrite Hp, Hq. split; assumption.
Qed.

Lemma unescape_write_plain (s : string) :
  Count s "%" = 0%nat -> Count s "+" = 0%nat -> unescape_write s = s.
Proof.
  induction s as [|c s IH]; [reflexivity|].
  cbn [Count unescape_write].
  destruct (Ascii.eqb c "%"); [discriminate|].
  destruct (Ascii.eqb c "+"); [discriminate|].
  intros Hp Hq. now rewrite IH.
Qed.

(** Text without ['%'] always decodes; text without ['%'] and ['+']
    decodes to itself. *)
Lemma QueryUnescape_without (s : string) :
  Count s "%" = 0%nat -> QueryUnescape s = (unescape_write s, None).
Proof.
  intros Hs. unfold QueryUnescape. now rewrite unescape_check_without.
Qed.

Lemma QueryUnescape_plain (s : string) :
  Count s "%" = 0%nat -> Count s "+" = 0%nat -> QueryUnescape s = (s, None).
Proof.
  intros Hp Hq. rewrite QueryUnescape_without by assumption.
  now rewrite unescape_write_plain.
Qed.

End UnescapeFacts.

(** ** The filter parser *)

Section ParseFilters.
Import Go Handler Spec.

Lemma fold_left_append {A B : Type} (f : A -> B) (l : list A) (acc : list B) :
  fold_left (fun acc x => acc ++ [f x]) l acc = acc ++ map f l.
Proof.
  revert acc. induction l as [|x l IH]; intros acc; simpl.
  - now rewrite app_nil_r.
  - rewrite IH, <- app_assoc. reflexivity.
Qed.

Lemma fold_left_append_if {A B : Type} (f : A -> B) (keep : B -> bool)
    (l : list A) (acc : list B) :
  fold_left (fun acc x => if keep (f x) then acc ++ [f x] else acc) l acc
  = acc ++ List.filter keep (map f l).
Proof.
  revert acc. induction l as [|x l IH]; intros acc; simpl.
  - now rewrite app_nil_r.
  - rewrite IH. destruct (keep (f x)); [|reflexivity].
    rewrite <- app_assoc. reflexivity.
Qed.

(** The two loops of [parseFilters], read as a map over the groups and a
    filter over the candidates. *)
Lemma parseFilters_loops (raw : string) :
  parseFilters raw
  = match QueryUnescape raw with
    | (_, Some err) => ([], Some err)
    | (decoded, None) =>
        (map (fun group =>
                List.filter (fun pair => Nat.eqb (length pair) 2)
                  (map (fun filter => Split filter "=") (Split group "&")))
             (Split decoded "|"),
         None)
    end.
Proof.
  unfold parseFilters. destruct (QueryUnescape raw) as [decoded [err|]].
  - reflexivity.
  - f_equal.
    rewrite (fold_left_append
               (fun group =>
                  fold_left
                    (fun andFilters filter =>
                       if Nat.eqb (length (Split filter "=")) 2
                       then andFilters ++ [Split filter "="] else andFilters)
                    (Split group "&") [])).
    simpl. apply map_ext. intros group.
    apply (fold_left_append_if (fun filter => Split filter "=")
             (fun pair => Nat.eqb (length pair) 2)).
Qed.

Lemma filter_map_commute {A B : Type} (f : A -> B) (keep : B -> bool)
    (l : list A) :
  List.filter keep (map f l) = map f (List.filter (fun x => keep (f x)) l).
Proof.
  induction l as [|x l IH]; simpl; [reflexivity|].
  destruct (keep (f x)); simpl; now rewrite IH.
Qed.

Lemma parseFilters_keptPairs (raw decoded : string) :
  QueryUnescape raw = (decoded, None) ->
  parseFilters raw = (map keptPairs (Split decoded "|"), None).
Proof.
  intros Hd. rewrite parseFilters_loops, Hd. f_equal.
  apply map_ext. intros group. unfold keptPairs.
  rewrite filter_map_commute. f_equal.
  apply List.filter_ext. intros filter. apply Split_two_iff.
Qed.

(** A successful parse never has zero groups. *)
Lemma parseFilters_not_nil (raw : string) (groups : list (list keyValues)) :
  parseFilters raw = (groups, None) -> groups <> [].
Proof.
  rewrite parseFilters_loops.
  destruct (QueryUnescape raw) as [decoded [err|]]; [discriminate|].
  intros [= <-] Hnil. apply map_eq_nil in Hnil.
  now apply Split_not_nil in Hnil.
Qed.

End ParseFilters.

Section Grammar.
Import Go Handler Spec.

Lemma plain_Count (s : string) :
  plain s = true ->
  Count s "|" = 0%nat /\ Count s "&" = 0%nat /\ Count s "=" = 0%nat
  /\ Count s "%" = 0%nat /\ Count s "+" = 0%nat.
Proof.
  unfold plain. rewrite !andb_true_iff, !Nat.eqb_eq. tauto.
Qed.

Lemma Count_renderPair (kv : string * string) (c : ascii) :
  Ascii.eqb "=" c = false ->
  Count (fst kv) c = 0%nat -> Count (snd kv) c = 0%nat ->
  Count (renderPair kv) c = 0%nat.
Proof.
  intros Hc Hk Hv. unfold renderPair. rewrite Count_app, Hk.
  cbn [Count Nat.add]. now rewrite Hc.
Qed.

Lemma Split_renderPair (kv : string * string) :
  plainPair kv -> Split (renderPair kv) "=" = [fst kv; snd kv].
Proof.
  intros [Hk Hv]. apply plain_Count in Hk, Hv. unfold renderPair.
  rewrite Split_at_first by tauto. now rewrite Split_without by tauto.
Qed.

Lemma Count_renderPair_eq (kv : string * string) :
  plainPair kv -> Count (renderPair kv) "=" = 1%nat.
Proof.
  intros [Hk Hv]. apply plain_Count in Hk, Hv. unfold renderPair.
  rewrite Count_app. cbn [Count]. rewrite Ascii.eqb_refl. lia.
Qed.

Lemma Count_renderGroup (group : list (string * string)) (c : ascii) :
  Ascii.eqb "&" c = false -> Ascii.eqb "=" c = false ->
  Forall (fun kv => Count (fst kv) c = 0%nat /\ Count (snd kv) c = 0%nat)
         group ->
  Count (renderGroup group) c = 0%nat.
Proof.
  intros Hamp Heq Hall. unfold renderGroup. apply Count_join; [exact Hamp|].
  apply List.Forall_map. eapply List.Forall_impl; [|exact Hall].
  intros kv [Hk Hv]. now apply Count_renderPair.
Qed.

Lemma keptPairs_renderGroup (group : list (string * string)) :
  Forall plainPair group ->
  keptPairs (renderGroup group) = map (fun kv => [fst kv; snd kv]) group.
Proof.
  intros Hall. destruct group as [|kv group]; [reflexivity|].
  unfold keptPairs, renderGroup.
  rewrite Split_join.
  - induction Hall as [|kv' rest Hkv _ IH]; [reflexivity|].
    simpl. rewrite (Count_renderPair_eq _ Hkv). simpl.
    now rewrite (Split_renderPair _ Hkv), IH.
  - discriminate.
  - apply List.Forall_map. eapply List.Forall_impl; [|exact Hall].
    intros kv' [Hk Hv]. apply plain_Count in Hk, Hv.
    apply Count_renderPair; [reflexivity|tauto|tauto].
Qed.

(** Parsing undoes rendering by the grammar: groups and pairs come back in
    their order, for every non-empty sequence of groups whose keys and
    values hold none of the bytes the grammar or the decoder give a
    meaning to.  A group may be empty, a key or a value too. *)
Lemma parseFilters_renderFilters (groups : list (list (string * string))) :
  groups <> [] ->
  Forall (Forall plainPair) groups ->
  parseFilters (renderFilters groups)
  = (map (map (fun kv => [fst kv; snd kv])) groups, None).
Proof.
  intros Hne Hall.
  assert (Hcount : forall c,
             Ascii.eqb "|" c = false -> Ascii.eqb "&" c = false ->
             Ascii.eqb "=" c = false ->
             (forall s, plain s = true -> Count s c = 0%nat) ->
             Count (renderFilters groups) c = 0%nat).
  { intros c Hbar Hamp Heq Hplain. unfold renderFilters.
    apply Count_join; [exact Hbar|]. apply List.Forall_map.
    eapply List.Forall_impl; [|exact Hall]. intros group Hgroup.
    apply Count_renderGroup; [exact Hamp|exact Heq|].
    eapply List.Forall_impl; [|exact Hgroup].
    intros kv [Hk Hv]. split; now apply Hplain. }
  rewrite (parseFilters_keptPairs _ (renderFilters groups)).
  - f_equal. unfold renderFilters. rewrite Split_join.
    + rewrite map_map. apply map_ext_Forall.
      eapply List.Forall_impl; [|exact Hall].
      intros group Hgroup. now apply keptPairs_renderGroup.
    + destruct groups; [contradiction|discriminate].
    + apply List.Forall_map. eapply List.Forall_impl; [|exact Hall].
      intros group Hgroup.
      apply Count_renderGroup; [reflexivity|reflexivity|].
      eapply List.Forall_impl; [|exact Hgroup].
      intros kv [Hk Hv]. apply plain_Count in Hk, Hv. tauto.
  - apply QueryUnescape_plain; apply Hcount; try reflexivity;
      intros s Hs; apply plain_Count in Hs; tauto.
Qed.

End Grammar.

Section ParseFiltersClaims.
Import Go Handler Spec.

Lemma keptPairs_In (group : string) (pair : keyValues) :
  In pair (keptPairs group)
  <-> exists key value,
        In (key +:+ String "=" value) (Split group "&")
        /\ Count key "=" = 0%nat /\ Count value "=" = 0%nat
        /\ pair = [key; value].
Proof.
  unfold keptPairs. rewrite in_map_iff. split.
  - intros (filter & <- & Hin). apply filter_In in Hin as [Hin Hone].
    apply Nat.eqb_eq, Split_one in Hone
      as (key & value & -> & Hsplit & Hkey & Hvalue).
    exists key, value. auto.
  - intros (key & value & Hin & Hkey & Hvalue & ->).
    exists (key +:+ String "=" value). split.
    + rewrite Split_at_first by exact Hkey.
      now rewrite Split_without by exact Hvalue.
    + apply filter_In. split; [exact Hin|].
      rewrite Count_app, Hkey. cbn [Count]. rewrite Ascii.eqb_refl.
      now rewrite Hvalue.
Qed.

(** C6. [parseFilters] implements the documented grammar.  The decoded
    string is split on ['|'] into groups and each group on ['&'] into
    candidate pairs, each split on ['=']; groups and pairs keep their
    order.  Whatever the grammar renders (groups of [key=value] joined by
    ['&'], joined by ['|']) parses back to the same groups of the same
    pairs.  In particular ["a=1&b=2|c=3"] yields the group of (a,1) and
    (b,2), in that order, then the group of (c,3). *)
Theorem parseFilters_grammar :
  (forall raw decoded : string,
      QueryUnescape raw = (decoded, None) ->
      parseFilters raw
      = (map (fun group =>
                List.filter (fun pair => Nat.eqb (length pair) 2)
                  (map (fun filter => Split filter "=") (Split group "&")))
             (Split decoded "|"),
         None))
  /\ (forall groups : list (list (string * string)),
         groups <> [] ->
         Forall (Forall plainPair) groups ->
         parseFilters (renderFilters groups)
         = (map (map (fun kv => [fst kv; snd kv])) groups, None))
  /\ parseFilters "a=1&b=2|c=3"
     = ([[["a"; "1"]; ["b"; "2"]]; [["c"; "3"]]], None).
Proof.
  split; [|split].
  - intros raw decoded Hd. now rewrite parseFilters_loops, Hd.
  - exact parseFilters_renderFilters.
  - reflexivity.
Qed.

Lemma parseFilters_grammar_witness :
  parseFilters (renderFilters [[("a", "1"); ("b", "2")]; [("c", "3")]])
  = ([[["a"; "1"]; ["b"; "2"]]; [["c"; "3"]]], None).
Proof.
  apply (proj1 (proj2 parseFilters_grammar)
           [[("a", "1"); ("b", "2")]; [("c", "3")]]).
  - discriminate.
  - repeat constructor.
Defined.

(** C3, as stated, fails: the entry ["a="] splits into the key ["a"] and
    an empty value, and [parseFilters] keeps it, where the parser of the
    specification's words drops it. *)
Lemma parseFilters_keeps_empty_value :
  parseFilters "a=" = ([[["a"; ""]]], None)
  /\ parseFilters_spec "a=" = ([[]], None)
  /\ parseFilters "a=" <> parseFilters_spec "a=".
Proof. repeat split. discriminate. Qed.

(** C3, amended.  [parseFilters] keeps a candidate exactly when it holds
    exactly one ['='], that is when its split on ['='] has exactly two
    parts, the key before the ['='] and the value after it, either of
    which may be empty; every other candidate is dropped and no error is
    produced.  Parsing ["a=1&bad|c=3"] yields the groups [[a=1]] and
    [[c=3]]. *)
Theorem parseFilters_keeps_one_equals :
  (forall raw decoded : string,
      QueryUnescape raw = (decoded, None) ->
      parseFilters raw = (map keptPairs (Split decoded "|"), None))
  /\ (forall (group : string) (pair : keyValues),
         In pair (keptPairs group)
         <-> exists key value,
               In (key +:+ String "=" value) (Split group "&")
               /\ Count key "=" = 0%nat /\ Count value "=" = 0%nat
               /\ pair = [key; value])
  /\ parseFilters "a=1&bad|c=3" = ([[["a"; "1"]]; [["c"; "3"]]], None).
Proof.
  split; [|split].
  - exact parseFilters_keptPairs.
  - exact keptPairs_In.
  - reflexivity.
Qed.

Lemma parseFilters_keeps_one_equals_witness :
  parseFilters "a%3D1%26bad%7Cc=3"
  = (map keptPairs (Split "a=1&bad|c=3" "|"), None).
Proof.
  apply (proj1 parseFilters_keeps_one_equals). reflexivity.
Defined.

(** C9.  On a filter string already in decoded form (no ['%'], hence no
    escape sequence) one more round of URL-unescaping succeeds, and
    parsing its result yields the same groups as parsing the string
    itself. *)
Theorem parseFilters_decoded_idempotent (raw : string) :
  Count raw "%" = 0%nat ->
  exists decoded,
    QueryUnescape raw = (decoded, None)
    /\ parseFilters decoded = parseFilters raw.
Proof.
  intros Hraw. exists (unescape_write raw).
  pose proof (QueryUnescape_without raw Hraw) as Hd.
  split; [exact Hd|].
  destruct (unescape_write_without raw Hraw) as [Hp Hq].
  rewrite (parseFilters_keptPairs raw _ Hd).
  apply parseFilters_keptPairs. now apply QueryUnescape_plain.
Qed.

Lemma parseFilters_decoded_idempotent_witness :
  exists decoded,
    QueryUnescape "a=1+2&b=2|c=3" = (decoded, None)
    /\ parseFilters decoded = parseFilters "a=1+2&b=2|c=3".
Proof.
  apply (parseFilters_decoded_idempotent "a=1+2&b=2|c=3"). reflexivity.
Defined.

End ParseFiltersClaims.

(** ** The stream merger *)

Section MergerFacts.
Import Go Handler Loki.

Lemma addRecord_reqLimit (m : StreamMerger) (r : string) :
  reqLimit (addRecord m r) = reqLimit m.
Proof.
  unfold addRecord. destruct (capReached m); [reflexivity|].
  destruct (bool_decide (r ∈ merged m)); reflexivity.
Qed.

Lemma addRecord_withinCap (m : StreamMerger) (r : string) :
  withinCap m -> withinCap (addRecord m r).
Proof.
  unfold withinCap. rewrite addRecord_reqLimit. intros Hm Hpos.
  specialize (Hm Hpos). unfold addRecord.
  destruct (capReached m) eqn:Hcap; [exact Hm|].
  destruct (bool_decide (r ∈ merged m)); [exact Hm|]. simpl.
  unfold capReached in Hcap. rewrite length_app. simpl.
  apply andb_false_iff in Hcap as [Hcap|Hcap]; lia.
Qed.

Lemma addRecord_capReached (m : StreamMerger) (r : string) :
  capReached m = true -> addRecord m r = m.
Proof. intros Hcap. unfold addRecord. now rewrite Hcap. Qed.

Lemma Add_reqLimit (m : StreamMerger) (batch : list string) :
  reqLimit (Add m batch) = reqLimit m.
Proof.
  unfold Add. revert m. induction batch as [|r batch IH]; intros m; simpl.
  - reflexivity.
  - now rewrite IH, addRecord_reqLimit.
Qed.

Lemma Add_withinCap (m : StreamMerger) (batch : list string) :
  withinCap m -> withinCap (Add m batch).
Proof.
  unfold Add. revert m. induction batch as [|r batch IH]; intros m Hm; simpl.
  - exact Hm.
  - apply IH. now apply addRecord_withinCap.
Qed.

Lemma Add_capReached (m : StreamMerger) (batch : list string) :
  capReached m = true -> Add m batch = m.
Proof.
  intros Hcap. unfold Add. induction batch as [|r batch IH]; simpl.
  - reflexivity.
  - now rewrite addRecord_capReached.
Qed.

Lemma NewStreamMerger_withinCap (limit : Z) : withinCap (NewStreamMerger limit).
Proof. unfold withinCap. simpl. lia. Qed.

Lemma Add_all_withinCap (m : StreamMerger) (batches : list (list string)) :
  withinCap m ->
  withinCap (fold_left Add batches m)
  /\ reqLimit (fold_left Add batches m) = reqLimit m.
Proof.
  revert m. induction batches as [|batch batches IH]; intros m Hm; simpl.
  - split; [exact Hm|reflexivity].
  - destruct (IH (Add m batch) (Add_withinCap _ _ Hm)) as [Hcap Hlimit].
    split; [exact Hcap|]. now rewrite Hlimit, Add_reqLimit.
Qed.

(** C5.  Under a positive limit, whatever batches are fed to the merger
    and in whatever order, the aggregated response never holds more
    records than the limit; and once the cap is reached a further batch
    adds nothing. *)
Theorem StreamMerger_never_exceeds_limit :
  forall (limit : Z) (batches : list (list string)),
    0 < limit ->
    Z.of_nat (length (result (Get (fold_left Add batches
                                             (NewStreamMerger limit)))))
    <= limit
    /\ (forall batch : list string,
           capReached (fold_left Add batches (NewStreamMerger limit)) = true ->
           Add (fold_left Add batches (NewStreamMerger limit)) batch
           = fold_left Add batches (NewStreamMerger limit)).
Proof.
  intros limit batches Hpos. split.
  - destruct (Add_all_withinCap (NewStreamMerger limit) batches
                (NewStreamMerger_withinCap limit)) as [Hcap Hlimit].
    simpl. unfold withinCap in Hcap. rewrite Hlimit in Hcap.
    now apply Hcap.
  - intros batch Hcap. now apply Add_capReached.
Qed.

Lemma StreamMerger_never_exceeds_limit_witness :
  Z.of_nat (length (result (Get (fold_left Add Demo.threeBatches
                                           (NewStreamMerger 10)))))
  <= 10.
Proof.
  apply (StreamMerger_never_exceeds_limit 10 Demo.threeBatches). lia.
Defined.

(** With limit 10, three batches of five distinct records leave the first
    ten, in arrival order. *)
Example threeBatches_limit_10 :
  result (Get (fold_left Add Demo.threeBatches (NewStreamMerger 10)))
  = ["r01"; "r02"; "r03"; "r04"; "r05"; "r06"; "r07"; "r08"; "r09"; "r10"].
Proof. vm_compute. reflexivity. Qed.

End MergerFacts.

(** ** Parameter extraction *)

Section Parameters.
Import Go Handler.
Variable Quote : string -> string.
Variable now : Z.

Lemma length_cases (s : string) :
  (s = "" /\ Nat.eqb (String.length s) 0 = true
   /\ Nat.ltb 0 (String.length s) = false)
  \/ (s <> "" /\ Nat.eqb (String.length s) 0 = false
      /\ Nat.ltb 0 (String.length s) = true).
Proof. destruct s; [left|right]; repeat split; discriminate. Qed.

Lemma ParseInt_empty : snd (ParseInt "") <> None.
Proof. discriminate. Qed.

Lemma getStartTime_explicit (params : gmap string (list string)) :
  Get params startTimeKey <> "" ->
  getStartTime Quote now params = (Get params startTimeKey, None).
Proof.
  intros Hstart. unfold getStartTime.
  destruct (length_cases (Get params startTimeKey))
    as [(Hs & _)|(_ & -> & _)]; [contradiction|reflexivity].
Qed.

Lemma getStartTime_relative (params : gmap string (list string)) (r : Z) :
  Get params startTimeKey = "" ->
  ParseInt (Get params timeRangeKey) = (r, None) ->
  getStartTime Quote now params = (FormatInt (int64 (now - r)), None).
Proof.
  intros Hstart Hparse. unfold getStartTime. rewrite Hstart. simpl.
  destruct (length_cases (Get params timeRangeKey))
    as [(Htr & _)|(_ & _ & ->)].
  - rewrite Htr in Hparse. discriminate.
  - now rewrite Hparse.
Qed.

Lemma getStartTime_unset (params : gmap string (list string)) :
  Get params startTimeKey = "" -> Get params timeRangeKey = "" ->
  getStartTime Quote now params = ("", None).
Proof. intros Hstart Htr. unfold getStartTime. now rewrite Hstart, Htr. Qed.

Lemma getStartTime_invalid (params : gmap string (list string))
    (v : Z) (err : error) :
  Get params startTimeKey = "" ->
  Get params timeRangeKey <> "" ->
  ParseInt (Get params timeRangeKey) = (v, Some err) ->
  getStartTime Quote now params
  = ("", Some (errorString
                 ("Could not parse time range: " +:+ Error Quote err))).
Proof.
  intros Hstart Htr Hparse. unfold getStartTime. rewrite Hstart. simpl.
  destruct (length_cases (Get params timeRangeKey))
    as [(Hempty & _)|(_ & _ & ->)]; [contradiction|].
  now rewrite Hparse.
Qed.

Lemma getLimit_unset (params : gmap string (list string)) :
  Get params limitKey = "" -> getLimit Quote params = ("", 0, None).
Proof. intros Hlimit. unfold getLimit. now rewrite Hlimit. Qed.

Lemma getLimit_valid (params : gmap string (list string)) (l : Z) :
  ParseInt (Get params limitKey) = (l, None) ->
  getLimit Quote params = (Get params limitKey, l, None).
Proof.
  intros Hparse. unfold getLimit.
  destruct (length_cases (Get params limitKey)) as [(Hl & _)|(_ & _ & ->)].
  - rewrite Hl in Hparse. discriminate.
  - now rewrite Hparse.
Qed.

Lemma getLimit_invalid (params : gmap string (list string))
    (v : Z) (err : error) :
  Get params limitKey <> "" ->
  ParseInt (Get params limitKey) = (v, Some err) ->
  getLimit Quote params
  = ("", 0, Some (errorString ("Could not parse limit: " +:+ Error Quote err))).
Proof.
  intros Hl Hparse. unfold getLimit.
  destruct (length_cases (Get params limitKey))
    as [(Hempty & _)|(_ & _ & ->)]; [contradiction|].
  now rewrite Hparse.
Qed.

(** [int64] arithmetic is exact on what fits in 64 bits. *)
Lemma int64_exact (z : Z) : - 2 ^ 63 <= z < 2 ^ 63 -> int64 z = z.
Proof.
  intros Hz. unfold int64. rewrite Z.mod_small; lia.
Qed.

(** What [strconv.ParseInt] accepts is an [int64]. *)
Lemma ParseUint_loop_nonneg (s : string) (n v : Z) :
  0 <= n -> ParseUint_loop s n = (v, None) -> 0 <= v.
Proof.
  revert n. induction s as [|c s IH]; intros n Hn; simpl.
  - now intros [= <-].
  - destruct (isdigit c) eqn:Hc; [|discriminate].
    destruct (maxUint64 / 10 + 1 <=? n); [discriminate|].
    destruct (maxUint64 <? n * 10 + (Z.of_N (N_of_ascii c) - 48));
      [discriminate|].
    apply IH. unfold isdigit in Hc.
    apply andb_true_iff in Hc as [Hlow _]. apply N.leb_le in Hlow. lia.
Qed.

Lemma ParseUint_loop_ErrRange (s : string) (n v : Z) :
  ParseUint_loop s n = (v, Some ErrRange) -> v = maxUint64.
Proof.
  revert n. induction s as [|c s IH]; intros n; simpl; [discriminate|].
  destruct (isdigit c); [|discriminate].
  destruct (maxUint64 / 10 + 1 <=? n); [now intros [= <-]|].
  destruct (maxUint64 <? n * 10 + (Z.of_N (N_of_ascii c) - 48));
    [now intros [= <-]|].
  apply IH.
Qed.

Lemma ParseInt_range (s : string) (r : Z) :
  ParseInt s = (r, None) -> - 2 ^ 63 <= r < 2 ^ 63.
Proof.
  unfold ParseInt. destruct s as [|c rest]; [discriminate|]. cbv zeta.
  match goal with |- context [ParseUint ?d] => generalize d end.
  intros digits. destruct (ParseUint digits) as [un err] eqn:Hun.
  assert (Hun' : match err with
                 | Some ErrRange => un = maxUint64
                 | Some ErrSyntax => True
                 | None => 0 <= un
                 end).
  { unfold ParseUint in Hun.
    destruct digits as [|d ds]; [now injection Hun as <- <-|].
    destruct err as [[|]|]; [exact I| |].
    - now apply ParseUint_loop_ErrRange in Hun.
    - now apply (ParseUint_loop_nonneg _ 0 un) in Hun. }
  destruct err as [[|]|]; [discriminate| |].
  - subst un. destruct (Ascii.eqb c "-"); discriminate.
  - destruct (Ascii.eqb c "-"); simpl.
    + destruct (2 ^ 63 <? un) eqn:Hcut; [discriminate|].
      intros [= <-]. apply Z.ltb_ge in Hcut. lia.
    + destruct (2 ^ 63 <=? un) eqn:Hcut; [discriminate|].
      intros [= <-]. apply Z.leb_gt in Hcut. lia.
Qed.

(** C7.  With no [startTime] and a [timeRange] holding a valid integer
    [r], [getStartTime] returns the decimal string of the current Unix
    time minus [r], the subtraction being Go's on [int64]: the exact
    difference whenever that is an [int64].  A [startTime] that is present
    is returned as given.  With both absent the result is the empty
    string.  There is no error in any of the three cases. *)
Theorem getStartTime_cases (params : gmap string (list string)) :
  (forall r : Z,
      Get params startTimeKey = "" ->
      ParseInt (Get params timeRangeKey) = (r, None) ->
      getStartTime Quote now params = (FormatInt (int64 (now - r)), None)
      /\ (- 2 ^ 63 <= now - r < 2 ^ 63 ->
          getStartTime Quote now params = (FormatInt (now - r), None)))
  /\ (Get params startTimeKey <> "" ->
      getStartTime Quote now params = (Get params startTimeKey, None))
  /\ (Get params startTimeKey = "" -> Get params timeRangeKey = "" ->
      getStartTime Quote now params = ("", None)).
Proof.
  split; [|split].
  - intros r Hstart Hparse.
    pose proof (getStartTime_relative params r Hstart Hparse) as Hget.
    split; [exact Hget|]. intros Hfits. now rewrite <- (int64_exact _ Hfits).
  - apply getStartTime_explicit.
  - apply getStartTime_unset.
Qed.

End Parameters.

Lemma getStartTime_cases_witness :
  Handler.getStartTime Demo.quotePlain 1700000000 Demo.lastMinute
  = ("1699999940", None).
Proof.
  apply (proj2 (proj1 (getStartTime_cases Demo.quotePlain 1700000000
                         Demo.lastMinute) 60 eq_refl eq_refl)).
  lia.
Defined.

(** ** The fan-out *)

Section Flows.
Import Go Handler Spec.
Context `{Collaborators}.
Variable Quote : string -> string.
Variable now : Z.

Lemma getFlows_runQueries (cfg : Config) (client : Caller)
    (params : gmap string (list string)) (start limit : string) (reqLimit : Z)
    (filterGroups : list (list keyValues)) :
  getStartTime Quote now params = (start, None) ->
  getLimit Quote params = (limit, reqLimit, None) ->
  parseFilters (Get params filtersKey) = (filterGroups, None) ->
  getFlows Quote now cfg client params
  = runQueries Quote cfg client start (Get params endTimeKey) limit
               (Get params reporterKey) reqLimit filterGroups.
Proof.
  intros Hstart Hlimit Hparse. unfold getFlows.
  now rewrite Hstart, Hlimit, Hparse.
Qed.

Lemma getFlows_start_error (cfg : Config) (client : Caller)
    (params : gmap string (list string)) (start : string) (err : error) :
  getStartTime Quote now params = (start, Some err) ->
  getFlows Quote now cfg client params
  = ([], (None, StatusBadRequest, Some err)).
Proof. intros Hstart. unfold getFlows. now rewrite Hstart. Qed.

Lemma getFlows_limit_error (cfg : Config) (client : Caller)
    (params : gmap string (list string)) (start limit : string) (reqLimit : Z)
    (err : error) :
  getStartTime Quote now params = (start, None) ->
  getLimit Quote params = (limit, reqLimit, Some err) ->
  getFlows Quote now cfg client params
  = ([], (None, StatusBadRequest, Some err)).
Proof.
  intros Hstart Hlimit. unfold getFlows. now rewrite Hstart, Hlimit.
Qed.

Section Queries.
Variable cfg : Config.
Variable client : Caller.
Variables start end_ limit reporter : string.
Variable reqLimit : Z.

Let qb : Builder := NewFlowQueryBuilder cfg start end_ limit reporter.

Lemma buildQueries_accepted (filterGroups : list (list keyValues))
    (queries : list string) :
  Forall (accepts qb) filterGroups ->
  buildQueries cfg start end_ limit reporter filterGroups queries
  = inr (queries
         ++ map (fun group => Build (fst (Filters qb group))) filterGroups).
Proof.
  intros Hall. revert queries.
  induction Hall as [|group rest Hgroup _ IH]; intros queries; simpl.
  - now rewrite app_nil_r.
  - unfold accepts in Hgroup. fold qb.
    destruct (Filters qb group) as [qb' [err|]]; [discriminate|].
    rewrite IH, <- app_assoc. reflexivity.
Qed.

Lemma buildQueries_rejected (accepted rest : list (list keyValues))
    (group : list keyValues) (queries : list string) (err : error) :
  Forall (accepts qb) accepted ->
  snd (Filters qb group) = Some err ->
  buildQueries cfg start end_ limit reporter (accepted ++ group :: rest)
               queries
  = inl err.
Proof.
  intros Hall Hgroup. revert queries.
  induction Hall as [|first accepted Hfirst _ IH]; intros queries; simpl.
  - fold qb. destruct (Filters qb group) as [qb' [err'|]]; simpl in Hgroup.
    + now injection Hgroup as ->.
    + discriminate.
  - unfold accepts in Hfirst. fold qb.
    destruct (Filters qb first) as [qb' [err'|]]; [discriminate|]. apply IH.
Qed.

Lemma runQueries_parallel (filterGroups : list (list keyValues)) :
  (1 < length filterGroups)%nat ->
  Forall (accepts qb) filterGroups ->
  fst (runQueries Quote cfg client start end_ limit reporter reqLimit
                  filterGroups)
  = [FetchParallel
       (map (fun group => Build (fst (Filters qb group))) filterGroups)].
Proof.
  intros Hlen Hall. unfold runQueries.
  apply Nat.ltb_lt in Hlen. rewrite Hlen.
  rewrite (buildQueries_accepted _ _ Hall). simpl.
  destruct (fetchParallel _ _ _) as [merger [code [err|]]]; reflexivity.
Qed.

Lemma runQueries_single (group : list keyValues) :
  accepts qb group ->
  fst (runQueries Quote cfg client start end_ limit reporter reqLimit [group])
  = [FetchSingle (Build (fst (Filters qb group)))].
Proof.
  intros Hgroup. unfold runQueries, buildSingle. simpl. fold qb.
  unfold accepts in Hgroup.
  destruct (Filters qb group) as [qb' [err|]]; [discriminate|]. simpl.
  destruct (fetchSingle _ _ _) as [merger [code [err|]]]; reflexivity.
Qed.

Lemma runQueries_unfiltered :
  fst (runQueries Quote cfg client start end_ limit reporter reqLimit [])
  = [FetchSingle (Build qb)].
Proof.
  unfold runQueries, buildSingle. simpl. fold qb.
  destruct (fetchSingle _ _ _) as [merger [code [err|]]]; reflexivity.
Qed.

End Queries.
End Flows.

Section FlowsClaims.
Import Go Handler Spec.
Context `{Collaborators}.
Variable Quote : string -> string.
Variable now : Z.

Lemma runQueries_parallel_answer (cfg : Config) (client : Caller)
    (start end_ limit reporter : string) (reqLimit : Z)
    (filterGroups : list (list keyValues)) :
  let qb := NewFlowQueryBuilder cfg start end_ limit reporter in
  let queries :=
    map (fun group => Build (fst (Filters qb group))) filterGroups in
  (1 < length filterGroups)%nat ->
  Forall (accepts qb) filterGroups ->
  runQueries Quote cfg client start end_ limit reporter reqLimit filterGroups
  = ([FetchParallel queries],
     answer Quote (fetchParallel client queries (NewStreamMerger reqLimit))).
Proof.
  intros qb queries Hlen Hall. unfold runQueries.
  apply Nat.ltb_lt in Hlen. rewrite Hlen.
  rewrite (buildQueries_accepted _ _ _ _ _ _ _ Hall). simpl app.
  fold qb. fold queries.
  destruct (fetchParallel client queries _) as [merger [code [err|]]];
    reflexivity.
Qed.

Lemma runQueries_single_answer (cfg : Config) (client : Caller)
    (start end_ limit reporter : string) (reqLimit : Z)
    (group : list keyValues) :
  let qb := NewFlowQueryBuilder cfg start end_ limit reporter in
  let query := Build (fst (Filters qb group)) in
  accepts qb group ->
  runQueries Quote cfg client start end_ limit reporter reqLimit [group]
  = ([FetchSingle query],
     answer Quote (fetchSingle client query (NewStreamMerger reqLimit))).
Proof.
  intros qb query Hgroup. unfold runQueries, buildSingle. simpl.
  fold qb. unfold accepts in Hgroup. subst query.
  destruct (Filters qb group) as [qb' [err|]]; [discriminate|]. simpl.
  destruct (fetchSingle client _ _) as [merger [code [err|]]]; reflexivity.
Qed.

Lemma runQueries_unfiltered_answer (cfg : Config) (client : Caller)
    (start end_ limit reporter : string) (reqLimit : Z) :
  let query := Build (NewFlowQueryBuilder cfg start end_ limit reporter) in
  runQueries Quote cfg client start end_ limit reporter reqLimit []
  = ([FetchSingle query],
     answer Quote (fetchSingle client query (NewStreamMerger reqLimit))).
Proof.
  intros query. unfold runQueries, buildSingle. simpl. fold query.
  destruct (fetchSingle client query _) as [merger [code [err|]]];
    reflexivity.
Qed.

(** C1.  Once the parameters are read, [getFlows] is [runQueries] on the
    parsed filter groups, and [runQueries] follows the fan-out rule for
    every list of groups.  With more than one group it builds one query
    per group, each from a fresh builder given that group, and hands them
    all, in order, to [fetchParallel], once, with the fresh merger of the
    request's limit; what it returns is what [fetchParallel] reported,
    answered as [answer] says.  With exactly one group it hands the query
    built from that group to [fetchSingle], once, in the same way.  With
    no group it hands the query built without filters to [fetchSingle],
    once, in the same way.  (A group the builder rejects ends the request
    before any fetch: see C10.) *)
Theorem getFlows_fan_out (cfg : Config) (client : Caller)
    (params : gmap string (list string)) (start limit : string)
    (reqLimit : Z) (filterGroups : list (list keyValues)) :
  getStartTime Quote now params = (start, None) ->
  getLimit Quote params = (limit, reqLimit, None) ->
  let end_ := Get params endTimeKey in
  let reporter := Get params reporterKey in
  let qb := NewFlowQueryBuilder cfg start end_ limit reporter in
  let merger := NewStreamMerger reqLimit in
  let run :=
    runQueries Quote cfg client start end_ limit reporter reqLimit
               filterGroups in
  (parseFilters (Get params filtersKey) = (filterGroups, None) ->
   getFlows Quote now cfg client params = run)
  /\ ((1 < length filterGroups)%nat ->
      Forall (accepts qb) filterGroups ->
      let queries :=
        map (fun group => Build (fst (Filters qb group))) filterGroups in
      length queries = length filterGroups
      /\ run
         = ([FetchParallel queries],
            answer Quote (fetchParallel client queries merger)))
  /\ (forall group : list keyValues,
         filterGroups = [group] -> accepts qb group ->
         let query := Build (fst (Filters qb group)) in
         run
         = ([FetchSingle query],
            answer Quote (fetchSingle client query merger)))
  /\ (filterGroups = [] ->
      run
      = ([FetchSingle (Build qb)],
         answer Quote (fetchSingle client (Build qb) merger))).
Proof.
  intros Hstart Hlimit end_ reporter qb merger run. repeat split.
  - now apply getFlows_runQueries.
  - apply length_map.
  - now apply runQueries_parallel_answer.
  - intros group Hone Hgroup query. subst run filterGroups.
    now apply runQueries_single_answer.
  - intros Hnone. subst run filterGroups.
    apply runQueries_unfiltered_answer.
Qed.


(** C10.  The two query-build error paths report differently.  With more
    than one group, the first group the builder rejects yields status 400
    and the builder's error text prefixed by ["Can't build query: "].
    With a single group, a rejection yields status 400 and the builder's
    error itself.  On both paths the response is nil and nothing is
    fetched. *)
Theorem getFlows_build_errors (cfg : Config) (client : Caller)
    (params : gmap string (list string)) (start limit : string)
    (reqLimit : Z) (filterGroups : list (list keyValues))
    (group : list keyValues) (err : error) :
  getStartTime Quote now params = (start, None) ->
  getLimit Quote params = (limit, reqLimit, None) ->
  parseFilters (Get params filtersKey) = (filterGroups, None) ->
  let qb :=
    NewFlowQueryBuilder cfg start (Get params endTimeKey) limit
                        (Get params reporterKey) in
  snd (Filters qb group) = Some err ->
  (forall accepted rest : list (list keyValues),
      filterGroups = accepted ++ group :: rest ->
      (1 < length filterGroups)%nat ->
      Forall (accepts qb) accepted ->
      getFlows Quote now cfg client params
      = ([], (None, StatusBadRequest,
              Some (errorString ("Can't build query: " +:+ Error Quote err)))))
  /\ (filterGroups = [group] ->
      getFlows Quote now cfg client params
      = ([], (None, StatusBadRequest, Some err))).
Proof.
  intros Hstart Hlimit Hparse qb Hgroup.
  rewrite (getFlows_runQueries _ _ _ _ _ _ _ _ _ Hstart Hlimit Hparse).
  split.
  - intros accepted rest -> Hlen Hall. unfold runQueries.
    apply Nat.ltb_lt in Hlen. rewrite Hlen.
    now rewrite (buildQueries_rejected _ _ _ _ _ _ _ _ _ _ Hall Hgroup).
  - intros ->. unfold runQueries, buildSingle. simpl. fold qb.
    destruct (Filters qb group) as [qb' [err'|]]; simpl in Hgroup.
    + now injection Hgroup as ->.
    + discriminate.
Qed.

(** C4, as stated, fails: the parse of the empty string has one group,
    not zero. *)
Lemma parseFilters_empty_has_a_group :
  parseFilters "" = ([[]], None)
  /\ length (fst (parseFilters "")) <> 0%nat.
Proof. split; [reflexivity|discriminate]. Qed.

(** C4, amended.  [parseFilters] applied to the empty string succeeds and
    returns exactly one group, which holds no pair.  A request without
    filters therefore takes the single-query path of [getFlows], which
    hands that empty group to the query builder: no filter pair is
    applied. *)
Theorem parseFilters_empty_string :
  parseFilters "" = ([[]], None)
  /\ (forall (cfg : Config) (client : Caller)
             (params : gmap string (list string)) (start limit : string)
             (reqLimit : Z),
         getStartTime Quote now params = (start, None) ->
         getLimit Quote params = (limit, reqLimit, None) ->
         Get params filtersKey = "" ->
         let qb :=
           NewFlowQueryBuilder cfg start (Get params endTimeKey) limit
                               (Get params reporterKey) in
         accepts qb [] ->
         fst (getFlows Quote now cfg client params)
         = [FetchSingle (Build (fst (Filters qb [])))]).
Proof.
  split; [reflexivity|].
  intros cfg client params start limit reqLimit Hstart Hlimit Hfilters qb Hqb.
  rewrite (getFlows_runQueries _ _ _ _ _ _ _ _ [[]] Hstart Hlimit)
    by now rewrite Hfilters.
  now apply runQueries_single.
Qed.

(** C8, amended.  When [startTime] is empty or absent and [timeRange] is
    non-empty and not a valid integer, [getStartTime] fails with the
    error ["Could not parse time range: ..."] and [getFlows] answers 400
    with it.  When [limit] is non-empty and not a valid integer,
    [getLimit] fails with the error ["Could not parse limit: ..."] and
    [getFlows] answers 400, with that error unless the start time failed
    first.  An empty or absent [limit] yields the empty string and zero,
    without error.  A non-empty [startTime] takes precedence: the time
    range is then not parsed, so that [getStartTime] returns the start
    time as given, without error, whatever the time range holds. *)
Theorem invalid_integer_is_bad_request (cfg : Config) (client : Caller)
    (params : gmap string (list string)) :
  (forall (v : Z) (err : error),
      Get params startTimeKey = "" ->
      Get params timeRangeKey <> "" ->
      ParseInt (Get params timeRangeKey) = (v, Some err) ->
      let failure :=
        errorString ("Could not parse time range: " +:+ Error Quote err) in
      getStartTime Quote now params = ("", Some failure)
      /\ getFlows Quote now cfg client params
         = ([], (None, StatusBadRequest, Some failure)))
  /\ (forall (v : Z) (err : error),
         Get params limitKey <> "" ->
         ParseInt (Get params limitKey) = (v, Some err) ->
         let failure :=
           errorString ("Could not parse limit: " +:+ Error Quote err) in
         getLimit Quote params = ("", 0, Some failure)
         /\ (exists reported,
                getFlows Quote now cfg client params
                = ([], (None, StatusBadRequest, Some reported))
                /\ (snd (getStartTime Quote now params) = None ->
                    reported = failure)))
  /\ (Get params limitKey = "" -> getLimit Quote params = ("", 0, None))
  /\ (Get params startTimeKey <> "" ->
      getStartTime Quote now params = (Get params startTimeKey, None)
      /\ forall timeRange : list string,
           getStartTime Quote now (<[timeRangeKey := timeRange]> params)
           = (Get params startTimeKey, None)).
Proof.
  split; [|split; [|split]]; cycle 3.
  { intros Hstart. split; [now apply getStartTime_explicit|].
    intros timeRange.
    assert (Hsame : Get (<[timeRangeKey := timeRange]> params) startTimeKey
                    = Get params startTimeKey).
    { unfold Get. now rewrite lookup_insert_ne. }
    rewrite <- Hsame. apply getStartTime_explicit. now rewrite Hsame. }
  - intros v err Hstart Htr Hparse failure.
    pose proof (getStartTime_invalid Quote now params v err Hstart Htr Hparse)
      as Hfail.
    split; [exact Hfail|]. now apply (getFlows_start_error _ _ _ _ _ "").
  - intros v err Hl Hparse failure.
    pose proof (getLimit_invalid Quote params v err Hl Hparse) as Hfail.
    split; [exact Hfail|].
    destruct (getStartTime Quote now params) as [start [e|]] eqn:Hstart.
    + exists e. split; [|discriminate].
      now apply (getFlows_start_error _ _ _ _ _ start).
    + exists failure. split; [|reflexivity].
      now apply (getFlows_limit_error _ _ _ _ _ start "" 0).
  - apply getLimit_unset.
Qed.

End FlowsClaims.

(** ** Concrete runs *)

Section Witnesses.
Import Go Handler Spec.

Example getFlows_twoGroups :
  getFlows (H := Loki.collaborators) Demo.quotePlain 1700000000 Demo.cfg
           Demo.healthy Demo.twoGroups
  = ([FetchParallel ["start=;end=;limit=;reporter=;a=1";
                     "start=;end=;limit=;reporter=;b=2"]],
     (Some {| Loki.result :=
                ["flow of start=;end=;limit=;reporter=;a=1";
                 "flow of start=;end=;limit=;reporter=;b=2"] |},
      200, None)).
Proof. vm_compute. reflexivity. Qed.

Example getFlows_oneGroup :
  getFlows (H := Loki.collaborators) Demo.quotePlain 1700000000 Demo.cfg
           Demo.healthy Demo.oneGroup
  = ([FetchSingle "start=;end=;limit=;reporter=;a=1"],
     (Some {| Loki.result := ["flow of start=;end=;limit=;reporter=;a=1"] |},
      200, None)).
Proof. vm_compute. reflexivity. Qed.

Example getFlows_unavailable :
  getFlows (H := Loki.collaborators) Demo.quotePlain 1700000000 Demo.cfg
           Demo.unavailable Demo.oneGroup
  = ([FetchSingle "start=;end=;limit=;reporter=;a=1"],
     (None, 503,
      Some (errorString "Error while fetching flows from Loki: unavailable"))).
Proof. vm_compute. reflexivity. Qed.

Example getFlows_unknownKey :
  getFlows (H := Loki.collaborators) Demo.quotePlain 1700000000 Demo.cfg
           Demo.healthy Demo.unknownKey
  = ([], (None, 400, Some (errorString "unknown filter key: d"))).
Proof. vm_compute. reflexivity. Qed.

Example getFlows_badLimit :
  getFlows (H := Loki.collaborators) Demo.quotePlain 1700000000 Demo.cfg
           Demo.healthy Demo.badLimit
  = ([], (None, 400,
          Some (errorString
                  ("Could not parse limit: "
                   +:+ Error Demo.quotePlain
                         (NumError "ParseInt" "1x" ErrSyntax))))).
Proof. vm_compute. reflexivity. Qed.

(** C8, as stated, fails: with [startTime=100&timeRange=abc] the time
    range is present and is not a valid integer, yet [getStartTime]
    returns the start time and no error. *)
Lemma getStartTime_ignores_timeRange :
  snd (ParseInt (Get Demo.startAndBadRange timeRangeKey)) <> None
  /\ getStartTime Demo.quotePlain 1700000000 Demo.startAndBadRange
     = ("100", None).
Proof. split; [discriminate|reflexivity]. Qed.

Lemma getFlows_fan_out_witness :
  runQueries (H := Loki.collaborators) Demo.quotePlain Demo.cfg
             Demo.healthy "" "" "" "" 0 [[["a"; "1"]]; [["b"; "2"]]]
  = ([FetchParallel ["start=;end=;limit=;reporter=;a=1";
                     "start=;end=;limit=;reporter=;b=2"]],
     (Some {| Loki.result :=
                ["flow of start=;end=;limit=;reporter=;a=1";
                 "flow of start=;end=;limit=;reporter=;b=2"] |},
      200, None)).
Proof.
  apply (proj2 (proj1 (proj2 (getFlows_fan_out (H := Loki.collaborators)
                                Demo.quotePlain 1700000000 Demo.cfg
                                Demo.healthy Demo.twoGroups "" "" 0
                                [[["a"; "1"]]; [["b"; "2"]]]
                                eq_refl eq_refl))
                 ltac:(simpl; lia) ltac:(repeat constructor))).
Defined.


Lemma getFlows_build_errors_witness :
  getFlows (H := Loki.collaborators) Demo.quotePlain 1700000000 Demo.cfg
           Demo.healthy Demo.unknownKeyOfTwo
  = ([], (None, 400,
          Some (errorString "Can't build query: unknown filter key: d"))).
Proof.
  apply (proj1 (getFlows_build_errors (H := Loki.collaborators)
                  Demo.quotePlain 1700000000 Demo.cfg Demo.healthy
                  Demo.unknownKeyOfTwo "" "" 0
                  [[["a"; "1"]]; [["d"; "2"]]] [["d"; "2"]]
                  (errorString "unknown filter key: d")
                  eq_refl eq_refl eq_refl eq_refl)
           [[["a"; "1"]]] []).
  - reflexivity.
  - simpl. lia.
  - repeat constructor.
Defined.

Lemma parseFilters_empty_string_witness :
  fst (getFlows (H := Loki.collaborators) Demo.quotePlain 1700000000
                Demo.cfg Demo.healthy Demo.noParameters)
  = [FetchSingle "start=;end=;limit=;reporter="].
Proof.
  apply (proj2 (parseFilters_empty_string (H := Loki.collaborators)
                  Demo.quotePlain 1700000000)
           Demo.cfg Demo.healthy Demo.noParameters "" "" 0);
    reflexivity.
Defined.

Lemma invalid_integer_is_bad_request_witness :
  getFlows (H := Loki.collaborators) Demo.quotePlain 1700000000 Demo.cfg
           Demo.healthy Demo.badRange
  = ([], (None, 400,
          Some (errorString
                  ("Could not parse time range: "
                   +:+ Error Demo.quotePlain
                         (NumError "ParseInt" "abc" ErrSyntax))))).
Proof.
  apply (proj1 (invalid_integer_is_bad_request (H := Loki.collaborators)
                  Demo.quotePlain 1700000000 Demo.cfg Demo.healthy
                  Demo.badRange)
           0 (NumError "ParseInt" "abc" ErrSyntax)).
  - reflexivity.
  - discriminate.
  - reflexivity.
Defined.

End Witnesses.

(** ** The specified collaborators under [getFlows] *)

Section SpecifiedCollaborators.
Import Go Handler Loki.

(** In the collection loop the first failure wins: if any completed query
    failed, the loop reports the status code and the error of one that
    did. *)
Lemma collect_failure (client : Client) (completed : list string)
    (m : StreamMerger) (query : string) (failure : Z * error) :
  In query completed ->
  call client query = inl failure ->
  exists query' code err m',
    In query' completed
    /\ call client query' = inl (code, err)
    /\ collect client completed m = (m', (code, Some err)).
Proof.
  revert m. induction completed as [|first rest IH]; intros m Hin Hfail.
  - contradiction.
  - simpl. destruct (call client first) as [[code err]|payload] eqn:Hfirst.
    + exists first, code, err, m. repeat split; [now left|exact Hfirst].
    + destruct Hin as [->|Hin]; [congruence|].
      destruct (IH (Add m payload) Hin Hfail)
        as (query' & code & err & m' & Hin' & Hcall & Hcollect).
      exists query', code, err, m'. repeat split; [now right|exact Hcall|].
      exact Hcollect.
Qed.

(** A failure of any one of the queries dispatched together surfaces as
    the failure of [fetchParallel], whatever the completion order. *)
Lemma fetchParallel_failure (client : Client) (queries : list string)
    (m : StreamMerger) (query : string) (failure : Z * error) :
  Permutation (completion client queries) queries ->
  In query queries ->
  call client query = inl failure ->
  exists query' code err m',
    In query' queries
    /\ call client query' = inl (code, err)
    /\ fetchParallel client queries m = (m', (code, Some err)).
Proof.
  intros Hperm Hin Hfail. unfold fetchParallel.
  assert (Hin' : In query (completion client queries)).
  { eapply Permutation_in; [symmetry; exact Hperm|exact Hin]. }
  destruct (collect_failure client _ m query failure Hin' Hfail)
    as (query' & code & err & m' & Hq & Hcall & Hcollect).
  exists query', code, err, m'. repeat split; [|exact Hcall|exact Hcollect].
  eapply Permutation_in; [exact Hperm|exact Hq].
Qed.

Lemma fetchSingle_withinCap (client : Client) (query : string)
    (m : StreamMerger) :
  withinCap m ->
  withinCap (fst (fetchSingle client query m))
  /\ reqLimit (fst (fetchSingle client query m)) = reqLimit m.
Proof.
  intros Hm. unfold fetchSingle.
  destruct (call client query) as [[code err]|payload]; simpl.
  - split; [exact Hm|reflexivity].
  - split; [now apply Add_withinCap|apply Add_reqLimit].
Qed.

Lemma collect_withinCap (client : Client) (completed : list string)
    (m : StreamMerger) :
  withinCap m ->
  withinCap (fst (collect client completed m))
  /\ reqLimit (fst (collect client completed m)) = reqLimit m.
Proof.
  revert m. induction completed as [|first rest IH]; intros m Hm; simpl.
  - split; [exact Hm|reflexivity].
  - destruct (call client first) as [[code err]|payload]; simpl.
    + split; [exact Hm|reflexivity].
    + destruct (IH (Add m payload) (Add_withinCap _ _ Hm)) as [Hcap Hlimit].
      split; [exact Hcap|]. now rewrite Hlimit, Add_reqLimit.
Qed.

(** With these collaborators, a response of [getFlows] to a request with
    a positive limit holds no more records than the limit. *)
Lemma runQueries_response_capped (Quote : string -> string) (cfg : Config)
    (client : Client) (start end_ limit reporter : string) (reqLimit : Z)
    (filterGroups : list (list keyValues))
    (response : AggregatedQueryResponse) (code : Z) (err : option error) :
  0 < reqLimit ->
  snd (runQueries (H := collaborators) Quote cfg client start end_ limit
                  reporter reqLimit filterGroups)
  = (Some response, code, err) ->
  Z.of_nat (length (result response)) <= reqLimit.
Proof.
  intros Hpos. unfold runQueries.
  pose proof (NewStreamMerger_withinCap reqLimit) as Hnew.
  destruct (Nat.ltb 1 (length filterGroups)).
  - destruct (buildQueries _ _ _ _ _ _ _) as [e|queries]; [discriminate|].
    cbn [Handler.fetchParallel Handler.NewStreamMerger collaborators].
    destruct (collect_withinCap client (completion client queries) _ Hnew)
      as [Hcap Hlimit].
    unfold fetchParallel.
    destruct (collect client _ _) as [m [code' [e|]]]; [discriminate|].
    intros [= <- _ _]. simpl in *. unfold withinCap in Hcap. lia.
  - destruct (buildSingle _ _ _ _ _ _) as [e|query]; [discriminate|].
    cbn [Handler.fetchSingle Handler.NewStreamMerger collaborators].
    destruct (fetchSingle_withinCap client query _ Hnew) as [Hcap Hlimit].
    destruct (fetchSingle client query _) as [m [code' [e|]]];
      [discriminate|].
    intros [= <- _ _]. simpl in *. unfold withinCap in Hcap. lia.
Qed.

(** With these collaborators, when any one of the queries that [getFlows]
    dispatches together fails, [getFlows] returns no response, and the
    status code and the prefixed error of a query that failed. *)
Lemma getFlows_parallel_member_failure (Quote : string -> string) (now : Z)
    (cfg : Config) (client : Client) (params : gmap string (list string))
    (queries : list string) (query : string) (failure : Z * error) :
  fst (getFlows (H := collaborators) Quote now cfg client params)
  = [FetchParallel queries] ->
  Permutation (completion client queries) queries ->
  In query queries ->
  call client query = inl failure ->
  exists query' code err,
    In query' queries
    /\ call client query' = inl (code, err)
    /\ snd (getFlows (H := collaborators) Quote now cfg client params)
       = (None, code,
          Some (errorString
                  ("Error while fetching flows from Loki: "
                   +:+ Error Quote err))).
Proof.
  unfold getFlows.
  destruct (getStartTime Quote now params) as [start [e|]]; [discriminate|].
  destruct (getLimit Quote params) as [[limit reqLimit] [e|]];
    [discriminate|].
  destruct (parseFilters (Go.Get params filtersKey)) as [filterGroups [e|]];
    [discriminate|].
  unfold runQueries.
  destruct (Nat.ltb 1 (length filterGroups)).
  - destruct (buildQueries _ _ _ _ _ _ _) as [e|built]; [discriminate|].
    cbn [Handler.fetchParallel Handler.NewStreamMerger collaborators].
    intros Hcalls Hperm Hin Hfail.
    assert (built = queries) as ->.
    { destruct (fetchParallel client built _) as [m [code [e|]]];
        now injection Hcalls. }
    destruct (fetchParallel_failure client queries (NewStreamMerger reqLimit)
                query failure Hperm Hin Hfail)
      as (query' & code & err & m' & Hin' & Hcall & Hfetch).
    exists query', code, err. rewrite Hfetch. auto.
  - destruct (buildSingle _ _ _ _ _ _) as [e|single]; [discriminate|].
    cbn [Handler.fetchSingle Handler.NewStreamMerger collaborators].
    destruct (fetchSingle client single _) as [m [code [e|]]]; discriminate.
Qed.

End SpecifiedCollaborators.

(** * Further properties of the handler *)

(** ** Shape of a parse *)

Section ParseShape.
Import Go Handler Spec.

Lemma Split_piece_Count (s : string) (sep c : ascii) (piece : string) :
  In piece (Split s sep) -> (Count piece c <= Count s c)%nat.
Proof.
  revert piece. induction s as [|a s IH]; intros piece; simpl.
  - intros [<-|[]]. reflexivity.
  - destruct (Ascii.eqb a sep).
    + intros [<-|Hin]; [simpl; lia|].
      specialize (IH piece Hin). destruct (Ascii.eqb a c); lia.
    + pose proof (Split_not_nil s sep) as Hne.
      destruct (Split s sep) as [|first rest]; [contradiction|].
      intros [<-|Hin].
      * specialize (IH first (or_introl eq_refl)). cbn [Count].
        destruct (Ascii.eqb a c); lia.
      * specialize (IH piece (or_intror Hin)).
        destruct (Ascii.eqb a c); lia.
Qed.

Lemma Split_piece_without (s : string) (sep : ascii) (piece : string) :
  In piece (Split s sep) -> Count piece sep = 0%nat.
Proof.
  revert piece. induction s as [|a s IH]; intros piece; simpl.
  - intros [<-|[]]. reflexivity.
  - destruct (Ascii.eqb a sep) eqn:Ha.
    + intros [<-|Hin]; [reflexivity|now apply IH].
    + pose proof (Split_not_nil s sep) as Hne.
      destruct (Split s sep) as [|first rest]; [contradiction|].
      intros [<-|Hin].
      * cbn [Count]. rewrite Ha. apply IH. now left.
      * apply IH. now right.
Qed.

(** X1.  A successful parse has one group more than the decoded string
    has bars: never zero groups, and a leading, trailing or doubled bar
    gives an empty group. *)
Theorem parseFilters_group_count (raw decoded : string) :
  QueryUnescape raw = (decoded, None) ->
  length (fst (parseFilters raw)) = S (Count decoded "|").
Proof.
  intros Hd. rewrite (parseFilters_keptPairs raw decoded Hd). simpl.
  now rewrite length_map, Split_length.
Qed.

Lemma parseFilters_group_count_witness :
  length (fst (parseFilters "a=1|")) = S (Count "a=1|" "|").
Proof. apply (parseFilters_group_count "a=1|" "a=1|"). reflexivity. Defined.

(** X2.  In a successful parse every pair has exactly two parts, a key
    and a value, and neither holds a bar, an ampersand or an equals sign:
    no escaping of a delimiter survives into a key or a value. *)
Theorem parseFilters_pairs_undelimited (raw : string)
    (groups : list (list keyValues)) :
  parseFilters raw = (groups, None) ->
  forall (group : list keyValues) (pair : keyValues),
    In group groups -> In pair group ->
    exists key value,
      pair = [key; value] /\ undelimited key /\ undelimited value.
Proof.
  intros Hparse group pair Hgroup Hpair.
  destruct (QueryUnescape raw) as [decoded [err|]] eqn:Hd.
  - unfold parseFilters in Hparse. rewrite Hd in Hparse. discriminate.
  - rewrite (parseFilters_keptPairs raw decoded Hd) in Hparse.
    injection Hparse as <-.
    apply in_map_iff in Hgroup as (text & <- & Htext).
    apply keptPairs_In in Hpair
      as (key & value & Hcand & Hkey & Hvalue & ->).
    exists key, value. split; [reflexivity|].
    pose proof (Split_piece_without _ _ _ Hcand) as Hamp.
    pose proof (Split_piece_Count _ "&" "|" _ Hcand) as Hbar.
    rewrite (Split_piece_without _ _ _ Htext) in Hbar.
    rewrite Count_app in Hamp, Hbar. cbn [Count] in Hamp, Hbar.
    change (Ascii.eqb "=" "&") with false in Hamp.
    change (Ascii.eqb "=" "|") with false in Hbar.
    cbv iota in Hamp, Hbar.
    unfold undelimited. repeat split; lia.
Qed.

Lemma parseFilters_pairs_undelimited_witness :
  exists key value,
    ["a"; "1"] = [key; value] /\ undelimited key /\ undelimited value.
Proof.
  apply (parseFilters_pairs_undelimited "a=1%7C2"
           [[["a"; "1"]]; []] eq_refl [["a"; "1"]] ["a"; "1"]).
  - now left.
  - now left.
Defined.

End ParseShape.

(** ** Parsing loses nothing but malformed candidates *)

Section ParseRender.
Import Go Handler Spec.

Lemma join_Split (s : string) (sep : ascii) : join sep (Split s sep) = s.
Proof.
  induction s as [|a s IH]; [reflexivity|]. cbn [Split].
  pose proof (Split_not_nil s sep) as Hne.
  destruct (Ascii.eqb_spec a sep) as [->|Ha];
    destruct (Split s sep) as [|first rest]; try contradiction.
  - rewrite join_cons, IH. reflexivity.
  - change (join sep (String a first :: rest))
      with (String a (join sep (first :: rest))).
    now rewrite IH.
Qed.

Lemma renderPair_Split (cand : string) :
  Count cand "=" = 1%nat -> renderPair (pairOf (Split cand "=")) = cand.
Proof.
  intros Hone. apply Split_one in Hone as (key & value & -> & -> & _).
  reflexivity.
Qed.

Lemma filter_all {A : Type} (keep : A -> bool) (l : list A) :
  (forall x, In x l -> keep x = true) -> List.filter keep l = l.
Proof.
  induction l as [|x l IH]; intros Hall; simpl; [reflexivity|].
  rewrite (Hall x (or_introl eq_refl)). f_equal.
  apply IH. intros y Hy. apply Hall. now right.
Qed.

Lemma map_fixed {A : Type} (f : A -> A) (l : list A) :
  (forall x, In x l -> f x = x) -> map f l = l.
Proof.
  induction l as [|x l IH]; intros Hall; simpl; [reflexivity|].
  rewrite (Hall x (or_introl eq_refl)). f_equal.
  apply IH. intros y Hy. apply Hall. now right.
Qed.

(** X3.  When every candidate of the decoded string holds exactly one
    equals sign, parsing loses nothing: writing the parsed groups back by
    the grammar, pairs joined by ampersands and groups by bars, gives the
    decoded string again. *)
Theorem renderFilters_parseFilters (raw decoded : string) :
  QueryUnescape raw = (decoded, None) ->
  (forall group cand : string,
      In group (Split decoded "|") -> In cand (Split group "&") ->
      Count cand "=" = 1%nat) ->
  renderFilters (map (map pairOf) (fst (parseFilters raw))) = decoded.
Proof.
  intros Hd Hone. rewrite (parseFilters_keptPairs raw decoded Hd).
  cbn [fst]. unfold renderFilters. rewrite !map_map.
  rewrite <- (join_Split decoded "|") at 2. f_equal.
  apply map_fixed. intros group Hgroup.
  unfold renderGroup, keptPairs.
  rewrite filter_all
    by (intros cand Hcand; apply Nat.eqb_eq; now apply (Hone group)).
  rewrite !map_map. rewrite <- (join_Split group "&") at 2. f_equal.
  apply map_fixed. intros cand Hcand.
  apply renderPair_Split. now apply (Hone group).
Qed.

Lemma renderFilters_parseFilters_witness :
  renderFilters (map (map pairOf) (fst (parseFilters "a=1%26b=|=c")))
  = "a=1&b=|=c".
Proof.
  apply (renderFilters_parseFilters "a=1%26b=|=c" "a=1&b=|=c" eq_refl).
  intros group cand [<-|[<-|[]]].
  - intros [<-|[<-|[]]]; reflexivity.
  - intros [<-|[]]; reflexivity.
Defined.

End ParseRender.

(** ** Malformed escapes *)

Section Escapes.
Import Go Handler Spec.

Lemma unescape_check_app_bounded (n : nat) (pre s : string) :
  (String.length pre <= n)%nat ->
  unescape_check pre = None ->
  unescape_check (pre +:+ s) = unescape_check s.
Proof.
  revert pre. induction n as [|n IH]; intros pre Hlen Hpre.
  - destruct pre; [reflexivity|simpl in Hlen; lia].
  - destruct pre as [|c pre]; [reflexivity|].
    change (String c pre +:+ s) with (String c (pre +:+ s)).
    cbn [unescape_check] in *. simpl in Hlen.
    destruct (Ascii.eqb c "%").
    + destruct pre as [|h [|l rest]]; try discriminate.
      change (String h (String l rest) +:+ s)
        with (String h (String l (rest +:+ s))).
      cbv iota. destruct (ishex h && ishex l); [|discriminate].
      apply IH; [simpl in Hlen; lia|exact Hpre].
    + apply IH; [lia|exact Hpre].
Qed.

Lemma unescape_check_app (pre s : string) :
  unescape_check pre = None ->
  unescape_check (pre +:+ s) = unescape_check s.
Proof. now apply (unescape_check_app_bounded (String.length pre)). Qed.

Lemma unescape_check_cutShort (tail : string) :
  cutShort tail = true ->
  unescape_check (String "%" tail) = Some (first3 (String "%" tail)).
Proof.
  intros Hcut. cbn [unescape_check].
  change (Ascii.eqb "%" "%") with true. cbv iota.
  destruct tail as [|h [|l rest]]; try reflexivity.
  cbn [cutShort] in Hcut. apply negb_true_iff in Hcut. now rewrite Hcut.
Qed.

Lemma unescape_check_Some_bounded (n : nat) (s bad : string) :
  (String.length s <= n)%nat ->
  unescape_check s = Some bad ->
  exists pre tail,
    s = pre +:+ String "%" tail
    /\ unescape_check pre = None
    /\ cutShort tail = true
    /\ bad = first3 (String "%" tail).
Proof.
  revert s. induction n as [|n IH]; intros s Hlen Hbad.
  - destruct s; [discriminate|simpl in Hlen; lia].
  - destruct s as [|c s]; [discriminate|].
    cbn [unescape_check] in Hbad. simpl in Hlen.
    destruct (Ascii.eqb c "%") eqn:Hc.
    + apply Ascii.eqb_eq in Hc. subst c.
      destruct s as [|h [|l rest]].
      * exists "", "". repeat split. now injection Hbad as <-.
      * exists "", (String h ""). repeat split. now injection Hbad as <-.
      * destruct (ishex h && ishex l) eqn:Hhex.
        -- destruct (IH rest) as (pre & tail & -> & Hpre & Hcut & ->);
             [simpl in Hlen; lia|exact Hbad|].
           exists (String "%" (String h (String l pre))), tail.
           repeat split; [|exact Hcut].
           cbn [unescape_check]. change (Ascii.eqb "%" "%") with true.
           cbv iota. now rewrite Hhex.
        -- exists "", (String h (String l rest)). repeat split.
           ++ cbn [cutShort]. now rewrite Hhex.
           ++ now injection Hbad as <-.
    + destruct (IH s) as (pre & tail & -> & Hpre & Hcut & ->);
        [lia|exact Hbad|].
      exists (String c pre), tail. repeat split; [|exact Hcut].
      cbn [unescape_check]. now rewrite Hc.
Qed.

Context `{Collaborators}.
Variable Quote : string -> string.
Variable now : Z.

(** X4.  [parseFilters] fails on a ['%'] that is not followed by two
    hexadecimal digits, and on nothing else: whenever it fails, its
    argument is some text that decodes, then a ['%'], then a tail that
    does not begin with two hexadecimal digits, the result is nil and the
    error is the [url.EscapeError] holding the at most three bytes of the
    argument from that ['%'] on; and every argument of that form makes it
    fail so.  [getFlows] answers such a request, once its start time and
    limit are read, with status 400 and that error, and contacts no
    backend. *)
Theorem malformed_escape_is_bad_request :
  (forall (raw : string) (groups : list (list keyValues)) (err : error),
      parseFilters raw = (groups, Some err) ->
      groups = []
      /\ exists pre tail,
           raw = pre +:+ String "%" tail
           /\ snd (QueryUnescape pre) = None
           /\ cutShort tail = true
           /\ err = EscapeError (first3 (String "%" tail)))
  /\ (forall pre tail : string,
         snd (QueryUnescape pre) = None ->
         cutShort tail = true ->
         parseFilters (pre +:+ String "%" tail)
         = ([], Some (EscapeError (first3 (String "%" tail)))))
  /\ (forall (cfg : Config) (client : Caller)
             (params : gmap string (list string)) (start limit : string)
             (reqLimit : Z) (err : error),
         getStartTime Quote now params = (start, None) ->
         getLimit Quote params = (limit, reqLimit, None) ->
         snd (parseFilters (Get params filtersKey)) = Some err ->
         getFlows Quote now cfg client params
         = ([], (None, StatusBadRequest, Some err))).
Proof.
  split; [|split].
  - intros raw groups err. unfold parseFilters, QueryUnescape.
    destruct (unescape_check raw) as [bad|] eqn:Hbad; [|discriminate].
    intros [= <- <-]. split; [reflexivity|].
    destruct (unescape_check_Some_bounded (String.length raw) raw bad
                (Nat.le_refl _) Hbad) as (pre & tail & Hraw & Hpre & Hcut & ->).
    exists pre, tail. repeat split; [exact Hraw| |exact Hcut].
    now rewrite Hpre.
  - intros pre tail Hpre Hcut. unfold parseFilters, QueryUnescape in *.
    destruct (unescape_check pre) eqn:Hcheck; [discriminate|].
    rewrite (unescape_check_app _ _ Hcheck).
    now rewrite (unescape_check_cutShort _ Hcut).
  - intros cfg client params start limit reqLimit err Hstart Hlimit Hparse.
    unfold getFlows. rewrite Hstart, Hlimit.
    destruct (parseFilters (Get params filtersKey)) as [groups [e|]];
      simpl in Hparse; [now injection Hparse as ->|discriminate].
Qed.

End Escapes.

Lemma malformed_escape_is_bad_request_witness :
  Handler.getFlows (H := Loki.collaborators) Demo.quotePlain 1700000000
                   Demo.cfg Demo.healthy Demo.cutEscape
  = ([], (None, 400, Some (Go.EscapeError "%"))).
Proof.
  apply (proj2 (proj2 (malformed_escape_is_bad_request
                         (H := Loki.collaborators) Demo.quotePlain
                         1700000000))
           Demo.cfg Demo.healthy Demo.cutEscape "" "" 0
           (Go.EscapeError "%"));
    reflexivity.
Defined.

(** ** Outcomes of a request *)

Section Outcomes.
Import Go Handler Spec.
Context `{Collaborators}.
Variable Quote : string -> string.


End Outcomes.

(** ** What reaches the backend *)

Section Dispatched.
Import Go Handler Spec.
Context `{Collaborators}.
Variable Quote : string -> string.
Variable now : Z.

Lemma buildQueries_built (cfg : Config) (start end_ limit reporter : string)
    (filterGroups : list (list keyValues)) (queries built : list string) :
  buildQueries cfg start end_ limit reporter filterGroups queries
  = inr built ->
  built
  = queries
    ++ map (fun group =>
              Build (fst (Filters (NewFlowQueryBuilder cfg start end_ limit
                                                       reporter) group)))
           filterGroups
  /\ Forall (accepts (NewFlowQueryBuilder cfg start end_ limit reporter))
            filterGroups.
Proof.
  revert queries. induction filterGroups as [|group rest IH];
    intros queries; simpl.
  - intros [= <-]. now rewrite app_nil_r.
  - destruct (Filters _ group) as [qb [err|]] eqn:Hgroup; [discriminate|].
    intros Hrest. destruct (IH _ Hrest) as [-> Hall].
    rewrite <- app_assoc. split; [reflexivity|].
    constructor; [|exact Hall]. unfold accepts. now rewrite Hgroup.
Qed.

(** X7.  What [getFlows] sends to the backend is decided by the bars of
    the decoded filters.  A parallel fetch is made only when there is at
    least one bar, and carries, in order, one query per piece between
    bars, each built from the pairs kept from that piece, empty pieces
    included.  A single fetch is made only when there is no bar, and its
    query is built from the pairs kept from the whole string: the builder
    is always given a group, never left without one. *)
Theorem getFlows_dispatch_follows_bars (cfg : Config) (client : Caller)
    (params : gmap string (list string)) (made : Call) :
  fst (getFlows Quote now cfg client params) = [made] ->
  exists decoded start limit reqLimit,
    QueryUnescape (Get params filtersKey) = (decoded, None)
    /\ getStartTime Quote now params = (start, None)
    /\ getLimit Quote params = (limit, reqLimit, None)
    /\ let qb :=
         NewFlowQueryBuilder cfg start (Get params endTimeKey) limit
                             (Get params reporterKey) in
       match made with
       | FetchParallel queries =>
           (0 < Count decoded "|")%nat
           /\ queries
              = map (fun piece => Build (fst (Filters qb (keptPairs piece))))
                    (Split decoded "|")
       | FetchSingle query =>
           Count decoded "|" = 0%nat
           /\ query = Build (fst (Filters qb (keptPairs decoded)))
       end.
Proof.
  unfold getFlows.
  destruct (getStartTime Quote now params) as [start [e|]]; [discriminate|].
  destruct (getLimit Quote params) as [[limit reqLimit] [e|]];
    [discriminate|].
  destruct (QueryUnescape (Get params filtersKey)) as [decoded [e|]] eqn:Hd.
  { unfold parseFilters. rewrite Hd. discriminate. }
  rewrite (parseFilters_keptPairs _ _ Hd). unfold runQueries.
  rewrite length_map, Split_length.
  intros Hmade. exists decoded, start, limit, reqLimit.
  repeat split. cbv zeta. revert Hmade.
  destruct (Nat.ltb 1 (S (Count decoded "|"))) eqn:Hbars.
  - apply Nat.ltb_lt in Hbars.
    destruct (buildQueries _ _ _ _ _ _ _) as [e|queries] eqn:Hbuilt;
      [discriminate|].
    apply buildQueries_built in Hbuilt as [-> _]. rewrite map_map.
    destruct (fetchParallel _ _ _) as [merger [code [e|]]];
      intros [= <-]; (split; [lia|reflexivity]).
  - apply Nat.ltb_ge in Hbars.
    assert (Hnone : Count decoded "|" = 0%nat) by lia.
    rewrite (Split_without _ _ Hnone). unfold buildSingle. simpl.
    destruct (Filters _ (keptPairs decoded)) as [qb [e|]]; [discriminate|].
    destruct (fetchSingle _ _ _) as [merger [code [e|]]];
      intros [= <-]; (split; [exact Hnone|reflexivity]).
Qed.

End Dispatched.

Lemma getFlows_dispatch_follows_bars_witness :
  exists decoded start limit reqLimit,
    Go.QueryUnescape (Go.Get Demo.trailingBar Handler.filtersKey)
    = (decoded, None)
    /\ Handler.getStartTime Demo.quotePlain 1700000000 Demo.trailingBar
       = (start, None)
    /\ Handler.getLimit Demo.quotePlain Demo.trailingBar
       = (limit, reqLimit, None)
    /\ (0 < Go.Count decoded "|")%nat
    /\ ["start=;end=;limit=;reporter=;a=1"; "start=;end=;limit=;reporter="]
       = map (fun piece =>
                Loki.Build
                  (fst (Loki.Filters
                          (Loki.NewFlowQueryBuilder Demo.cfg start
                             (Go.Get Demo.trailingBar Handler.endTimeKey)
                             limit
                             (Go.Get Demo.trailingBar Handler.reporterKey))
                          (Spec.keptPairs piece))))
             (Go.Split decoded "|").
Proof.
  apply (getFlows_dispatch_follows_bars (H := Loki.collaborators)
           Demo.quotePlain 1700000000 Demo.cfg Demo.healthy Demo.trailingBar
           (Handler.FetchParallel
              ["start=;end=;limit=;reporter=;a=1";
               "start=;end=;limit=;reporter="])).
  reflexivity.
Defined.

(** ** Integers written and read back *)

Section Decimal.
Import Go Handler.

Lemma maxUint64_eq : maxUint64 = 18446744073709551615.
Proof. reflexivity. Qed.

Lemma isdigit_not_sign (c : ascii) :
  isdigit c = true -> Ascii.eqb c "+" = false /\ Ascii.eqb c "-" = false.
Proof.
  destruct c as [[|] [|] [|] [|] [|] [|] [|] [|]];
    try discriminate; intros _; split; reflexivity.
Qed.

Lemma ParseUint_loop_step (c : ascii) (s : string) (n k : Z) :
  isdigit c = true ->
  Z.of_N (N_of_ascii c) - 48 = k ->
  0 <= n -> 0 <= k -> n * 10 + k <= maxUint64 ->
  ParseUint_loop (String c s) n = ParseUint_loop s (n * 10 + k).
Proof.
  intros Hc Hk Hn Hk0 Hmax. cbn [ParseUint_loop]. rewrite Hc, Hk.
  change (maxUint64 / 10 + 1) with 1844674407370955162.
  rewrite maxUint64_eq in *.
  destruct (1844674407370955162 <=? n) eqn:Hcut.
  - apply Z.leb_le in Hcut. lia.
  - destruct (18446744073709551615 <? n * 10 + k) eqn:Hover;
      [apply Z.ltb_lt in Hover; lia|reflexivity].
Qed.

Lemma of_uint_acc_le (d : Decimal.uint) (acc : positive) :
  (acc <= Pos.of_uint_acc d acc)%positive.
Proof.
  revert acc.
  induction d as [|d IH|d IH|d IH|d IH|d IH|d IH|d IH|d IH|d IH|d IH];
    intros acc; cbn [Pos.of_uint_acc]; [lia|..];
    match goal with
    | |- (_ <= Pos.of_uint_acc _ ?next)%positive =>
        specialize (IH next); lia
    end.
Qed.

Ltac parse_digit c k d acc IH Hmax :=
  match type of Hmax with
  | Z.pos (Pos.of_uint_acc _ ?next) <= _ =>
      pose proof (of_uint_acc_le d next)
  end;
  rewrite (ParseUint_loop_step c _ (Z.pos acc) k eq_refl eq_refl);
  [rewrite <- (IH _ Hmax); f_equal; lia|lia|lia|lia].

Lemma ParseUint_loop_of_uint_acc (d : Decimal.uint) (acc : positive) :
  Z.pos (Pos.of_uint_acc d acc) <= maxUint64 ->
  ParseUint_loop (NilEmpty.string_of_uint d) (Z.pos acc)
  = (Z.pos (Pos.of_uint_acc d acc), None).
Proof.
  revert acc.
  induction d as [|d IH|d IH|d IH|d IH|d IH|d IH|d IH|d IH|d IH|d IH];
    intros acc; cbn [Pos.of_uint_acc NilEmpty.string_of_uint];
    [reflexivity|..]; intros Hmax.
  - parse_digit "0"%char 0 d acc IH Hmax.
  - parse_digit "1"%char 1 d acc IH Hmax.
  - parse_digit "2"%char 2 d acc IH Hmax.
  - parse_digit "3"%char 3 d acc IH Hmax.
  - parse_digit "4"%char 4 d acc IH Hmax.
  - parse_digit "5"%char 5 d acc IH Hmax.
  - parse_digit "6"%char 6 d acc IH Hmax.
  - parse_digit "7"%char 7 d acc IH Hmax.
  - parse_digit "8"%char 8 d acc IH Hmax.
  - parse_digit "9"%char 9 d acc IH Hmax.
Qed.

Ltac parse_first c k p Hmax :=
  rewrite (ParseUint_loop_step c _ 0 k eq_refl eq_refl);
  [exact (ParseUint_loop_of_uint_acc _ p Hmax)
  |lia|lia|rewrite maxUint64_eq; lia].

Lemma ParseUint_loop_of_uint (d : Decimal.uint) :
  Z.of_N (Pos.of_uint d) <= maxUint64 ->
  ParseUint_loop (NilEmpty.string_of_uint d) 0 = (Z.of_N (Pos.of_uint d), None).
Proof.
  induction d as [|d IH|d IH|d IH|d IH|d IH|d IH|d IH|d IH|d IH|d IH];
    cbn [Pos.of_uint NilEmpty.string_of_uint]; [reflexivity|..]; intros Hmax.
  - rewrite (ParseUint_loop_step "0" _ 0 0 eq_refl eq_refl);
      [now apply IH|lia|lia|rewrite maxUint64_eq; lia].
  - parse_first "1"%char 1 1%positive Hmax.
  - parse_first "2"%char 2 2%positive Hmax.
  - parse_first "3"%char 3 3%positive Hmax.
  - parse_first "4"%char 4 4%positive Hmax.
  - parse_first "5"%char 5 5%positive Hmax.
  - parse_first "6"%char 6 6%positive Hmax.
  - parse_first "7"%char 7 7%positive Hmax.
  - parse_first "8"%char 8 8%positive Hmax.
  - parse_first "9"%char 9 9%positive Hmax.
Qed.

Lemma string_of_uint_first (d : Decimal.uint) :
  d <> Decimal.Nil ->
  NilZero.string_of_uint d = NilEmpty.string_of_uint d
  /\ exists c rest,
       NilEmpty.string_of_uint d = String c rest /\ isdigit c = true.
Proof.
  destruct d; [contradiction|..]; intros _;
    (split; [reflexivity|]); cbn [NilEmpty.string_of_uint]; eauto.
Qed.

Lemma ParseInt_unsigned (c : ascii) (rest : string) (v : Z) :
  isdigit c = true ->
  ParseUint_loop (String c rest) 0 = (v, None) ->
  v < 2 ^ 63 ->
  ParseInt (String c rest) = (v, None).
Proof.
  intros Hc Hloop Hv. unfold ParseInt. cbv zeta.
  destruct (isdigit_not_sign c Hc) as [-> ->]. cbn [orb negb andb].
  change (ParseUint (String c rest)) with (ParseUint_loop (String c rest) 0).
  rewrite Hloop. destruct (Z.leb_spec (2 ^ 63) v); [lia|reflexivity].
Qed.

Lemma ParseInt_negative (c : ascii) (rest : string) (v : Z) :
  ParseUint_loop (String c rest) 0 = (v, None) ->
  v <= 2 ^ 63 ->
  ParseInt (String "-" (String c rest)) = (- v, None).
Proof.
  intros Hloop Hv. unfold ParseInt. cbv zeta.
  change (Ascii.eqb "-" "-") with true.
  change (Ascii.eqb "-" "+") with false. cbn [orb negb andb].
  change (ParseUint (String c rest)) with (ParseUint_loop (String c rest) 0).
  rewrite Hloop. destruct (Z.ltb_spec (2 ^ 63) v); [lia|reflexivity].
Qed.

(** Reading back what [strconv.FormatInt] writes gives the [int64]
    written. *)
Lemma ParseInt_FormatInt (z : Z) :
  - 2 ^ 63 <= z < 2 ^ 63 -> ParseInt (FormatInt z) = (z, None).
Proof.
  intros Hz. destruct z as [|p|p]; [reflexivity|..];
    unfold FormatInt; cbn [Z.to_int NilZero.string_of_int];
    destruct (string_of_uint_first (Pos.to_uint p)
                (Unsigned.to_uint_nonnil p))
      as (-> & c & rest & Hs & Hc);
    pose proof (ParseUint_loop_of_uint (Pos.to_uint p)) as Hloop;
    rewrite (Unsigned.of_to p), Hs, maxUint64_eq in Hloop;
    rewrite Hs; cbn [Z.of_N] in Hloop.
  - apply ParseInt_unsigned; [exact Hc|apply Hloop; lia|lia].
  - change (Z.neg p) with (- Z.pos p).
    apply ParseInt_negative; [apply Hloop; lia|lia].
Qed.

Lemma int64_range (z : Z) : - 2 ^ 63 <= int64 z < 2 ^ 63.
Proof.
  unfold int64. pose proof (Z.mod_pos_bound (z + 2 ^ 63) (2 ^ 64)). lia.
Qed.

Variable Quote : string -> string.
Variable now : Z.

(** X8.  [getLimit] takes every [int64], zero and the negative ones
    included: a limit written in decimal comes back as that same string
    and that integer, without error.  And whatever [getLimit] accepts,
    its string form is the parameter untouched and its integer form is
    the [int64] that string denotes, or zero for the empty string. *)
Theorem getLimit_forms_agree (params : gmap string (list string)) :
  (forall l : Z,
      - 2 ^ 63 <= l < 2 ^ 63 ->
      Get params limitKey = FormatInt l ->
      getLimit Quote params = (FormatInt l, l, None))
  /\ (forall (limit : string) (reqLimit : Z),
         getLimit Quote params = (limit, reqLimit, None) ->
         limit = Get params limitKey
         /\ - 2 ^ 63 <= reqLimit < 2 ^ 63
         /\ (limit = "" /\ reqLimit = 0
             \/ limit <> "" /\ ParseInt limit = (reqLimit, None))).
Proof.
  split.
  - intros l Hl Hget. rewrite <- Hget. apply getLimit_valid.
    rewrite Hget. now apply ParseInt_FormatInt.
  - intros limit reqLimit. unfold getLimit.
    destruct (length_cases (Get params limitKey))
      as [(Hempty & _ & ->)|(Hfull & _ & ->)].
    + intros [= <- <-]. repeat split; try lia. now left.
    + destruct (ParseInt (Get params limitKey)) as [l [err|]] eqn:Hparse;
        [discriminate|].
      intros [= <- <-]. repeat split; try apply (ParseInt_range _ _ Hparse).
      now right.
Qed.

(** X9.  The start time that [getStartTime] computes from a time range is
    always the decimal text of an [int64]: read back by
    [strconv.ParseInt] it gives the wrapped difference of the clock and
    the range, with no error. *)
Theorem getStartTime_reads_back (params : gmap string (list string))
    (r : Z) :
  Get params startTimeKey = "" ->
  ParseInt (Get params timeRangeKey) = (r, None) ->
  exists start,
    getStartTime Quote now params = (start, None)
    /\ ParseInt start = (int64 (now - r), None).
Proof.
  intros Hstart Hparse. exists (FormatInt (int64 (now - r))). split.
  - now apply getStartTime_relative.
  - apply ParseInt_FormatInt, int64_range.
Qed.

End Decimal.

Lemma getLimit_forms_agree_witness :
  Handler.getLimit Demo.quotePlain Demo.negativeLimit = ("-5", -5, None).
Proof.
  apply (proj1 (getLimit_forms_agree Demo.quotePlain Demo.negativeLimit)
           (-5)).
  - lia.
  - reflexivity.
Defined.

Lemma getStartTime_reads_back_witness :
  exists start,
    Handler.getStartTime Demo.quotePlain 1700000000 Demo.lastMinute
    = (start, None)
    /\ Go.ParseInt start = (Go.int64 (1700000000 - 60), None).
Proof.
  apply (getStartTime_reads_back Demo.quotePlain 1700000000 Demo.lastMinute
           60); reflexivity.
Defined.

(** ** Integers that are refused *)

Section Refused.
Import Go Handler Spec.

Lemma ParseUint_loop_allDigits (s : string) (n v : Z) :
  ParseUint_loop s n = (v, None) -> allDigits s = true.
Proof.
  revert n. induction s as [|c s IH]; intros n; [reflexivity|].
  cbn [ParseUint_loop allDigits].
  destruct (isdigit c); [|discriminate]. cbv zeta.
  destruct (maxUint64 / 10 + 1 <=? n); [discriminate|].
  destruct (maxUint64 <? _); [discriminate|]. apply IH.
Qed.

Lemma ParseInt_decimalSyntax (s : string) (v : Z) :
  ParseInt s = (v, None) -> decimalSyntax s = true.
Proof.
  unfold ParseInt, decimalSyntax. destruct s as [|c rest]; [discriminate|].
  cbv zeta. destruct (Ascii.eqb c "+" || Ascii.eqb c "-").
  - unfold ParseUint. destruct rest as [|d rest]; [discriminate|].
    destruct (ParseUint_loop (String d rest) 0) as [un [[|]|]] eqn:Hloop;
      [discriminate| |].
    + apply ParseUint_loop_ErrRange in Hloop as ->.
      destruct (Ascii.eqb c "-"); discriminate.
    + intros _. now apply ParseUint_loop_allDigits in Hloop.
  - unfold ParseUint.
    destruct (ParseUint_loop (String c rest) 0) as [un [[|]|]] eqn:Hloop;
      [discriminate| |].
    + apply ParseUint_loop_ErrRange in Hloop as ->.
      destruct (Ascii.eqb c "-"); discriminate.
    + intros _. now apply ParseUint_loop_allDigits in Hloop.
Qed.

Lemma ParseUint_loop_overflow_acc (d : Decimal.uint) (acc : positive) :
  Z.pos acc <= maxUint64 ->
  maxUint64 < Z.pos (Pos.of_uint_acc d acc) ->
  ParseUint_loop (NilEmpty.string_of_uint d) (Z.pos acc)
  = (maxUint64, Some ErrRange).
Proof.
  revert acc.
  induction d as [|d IH|d IH|d IH|d IH|d IH|d IH|d IH|d IH|d IH|d IH];
    intros acc Hacc; cbn [Pos.of_uint_acc NilEmpty.string_of_uint];
    [lia|..]; intros Hover; cbn [ParseUint_loop];
    match goal with
    | |- (if isdigit ?c then _ else _) = _ =>
        change (isdigit c) with true; cbv iota zeta;
        change (Z.of_N (N_of_ascii c) - 48)
          with (Z.of_N (N_of_ascii c - 48));
        let k := eval vm_compute in (Z.of_N (N_of_ascii c - 48)) in
        change (Z.of_N (N_of_ascii c - 48)) with k
    end;
    (destruct (maxUint64 / 10 + 1 <=? Z.pos acc); [reflexivity|]);
    match goal with
    | |- (if maxUint64 <? ?n1 then _ else _) = _ =>
        destruct (Z.ltb_spec maxUint64 n1) as [Hn1|Hn1]; [reflexivity|]
    end;
    match type of Hover with
    | _ < Z.pos (Pos.of_uint_acc _ ?next) =>
        rewrite <- (IH next); [f_equal; lia|lia|exact Hover]
    end.
Qed.

Ltac overflow_first c k p Hover :=
  rewrite (ParseUint_loop_step c _ 0 k eq_refl eq_refl);
  [apply (ParseUint_loop_overflow_acc _ p);
   [rewrite maxUint64_eq; lia|exact Hover]
  |lia|lia|rewrite maxUint64_eq; lia].

Lemma ParseUint_loop_overflow (d : Decimal.uint) :
  maxUint64 < Z.of_N (Pos.of_uint d) ->
  ParseUint_loop (NilEmpty.string_of_uint d) 0 = (maxUint64, Some ErrRange).
Proof.
  induction d as [|d IH|d IH|d IH|d IH|d IH|d IH|d IH|d IH|d IH|d IH];
    cbn [Pos.of_uint NilEmpty.string_of_uint Z.of_N];
    [rewrite maxUint64_eq; lia|..]; intros Hover.
  - rewrite (ParseUint_loop_step "0" _ 0 0 eq_refl eq_refl);
      [now apply IH|lia|lia|rewrite maxUint64_eq; lia].
  - overflow_first "1"%char 1 1%positive Hover.
  - overflow_first "2"%char 2 2%positive Hover.
  - overflow_first "3"%char 3 3%positive Hover.
  - overflow_first "4"%char 4 4%positive Hover.
  - overflow_first "5"%char 5 5%positive Hover.
  - overflow_first "6"%char 6 6%positive Hover.
  - overflow_first "7"%char 7 7%positive Hover.
  - overflow_first "8"%char 8 8%positive Hover.
  - overflow_first "9"%char 9 9%positive Hover.
Qed.

(** The digit loop on the numeral of a positive: the number itself, or
    the range error once it passes [maxUint64]. *)
Lemma ParseUint_loop_numeral (p : positive) :
  ParseUint_loop (NilEmpty.string_of_uint (Pos.to_uint p)) 0
  = if Z.pos p <=? maxUint64 then (Z.pos p, None)
    else (maxUint64, Some ErrRange).
Proof.
  pose proof (ParseUint_loop_of_uint (Pos.to_uint p)) as Hfits.
  pose proof (ParseUint_loop_overflow (Pos.to_uint p)) as Hover.
  rewrite (Unsigned.of_to p) in Hfits, Hover. cbn [Z.of_N] in Hfits, Hover.
  destruct (Z.leb_spec (Z.pos p) maxUint64); auto.
Qed.

Lemma ParseInt_numeral_refused (z : Z) :
  z < - 2 ^ 63 \/ 2 ^ 63 <= z ->
  ParseInt (numeral z)
  = (if z <? 0 then - 2 ^ 63 else 2 ^ 63 - 1,
     Some (NumError "ParseInt" (numeral z) ErrRange)).
Proof.
  intros Hz. destruct z as [|p|p]; [lia|..];
    unfold numeral; cbn [Z.to_int NilZero.string_of_int];
    destruct (string_of_uint_first (Pos.to_uint p)
                (Unsigned.to_uint_nonnil p))
      as (-> & c & rest & Hs & Hc);
    pose proof (ParseUint_loop_numeral p) as Hloop;
    rewrite Hs in *; unfold ParseInt; cbv zeta.
  - destruct (isdigit_not_sign c Hc) as [-> ->]. cbn [orb negb andb].
    change (ParseUint (String c rest))
      with (ParseUint_loop (String c rest) 0).
    rewrite Hloop, maxUint64_eq.
    destruct (Z.leb_spec (Z.pos p) 18446744073709551615).
    + destruct (Z.leb_spec (2 ^ 63) (Z.pos p)); [reflexivity|lia].
    + reflexivity.
  - change (Ascii.eqb "-" "-") with true.
    change (Ascii.eqb "-" "+") with false. cbn [orb negb andb].
    change (ParseUint (String c rest))
      with (ParseUint_loop (String c rest) 0).
    rewrite Hloop, maxUint64_eq.
    destruct (Z.leb_spec (Z.pos p) 18446744073709551615).
    + destruct (Z.ltb_spec (2 ^ 63) (Z.pos p)); [reflexivity|lia].
    + reflexivity.
Qed.

Variable Quote : string -> string.
Variable now : Z.

(** X10.  A limit or a time range written as the decimal numeral of an
    integer that does not fit in 64 bits is refused: [getLimit] and
    [getStartTime] fail with the parse error whose cause is
    ["value out of range"], and return the empty string (and zero). *)
Theorem integers_outside_int64_refused
    (params : gmap string (list string)) (z : Z) :
  z < - 2 ^ 63 \/ 2 ^ 63 <= z ->
  let cause := NumError "ParseInt" (numeral z) ErrRange in
  (Get params limitKey = numeral z ->
   getLimit Quote params
   = ("", 0,
      Some (errorString ("Could not parse limit: " +:+ Error Quote cause))))
  /\ (Get params startTimeKey = "" ->
      Get params timeRangeKey = numeral z ->
      getStartTime Quote now params
      = ("",
         Some (errorString
                 ("Could not parse time range: " +:+ Error Quote cause)))).
Proof.
  intros Hz cause. pose proof (ParseInt_numeral_refused z Hz) as Hparse.
  assert (Hfull : numeral z <> "").
  { intros Hempty. rewrite Hempty in Hparse. discriminate. }
  split.
  - intros Hget. rewrite <- Hget in Hparse, Hfull.
    now rewrite (getLimit_invalid Quote params _ _ Hfull Hparse), Hget.
  - intros Hstart Hget. rewrite <- Hget in Hparse, Hfull.
    now rewrite (getStartTime_invalid Quote now params _ _ Hstart Hfull
                   Hparse), Hget.
Qed.

(** X11.  A non-empty limit, or a non-empty time range read because no
    start time is given, that is not an optional sign followed by one or
    more decimal digits is refused with a parse error: no spaces, no
    underscores, no base prefix, no fraction, no exponent. *)
Theorem integers_in_other_syntax_refused
    (params : gmap string (list string)) :
  (Get params limitKey <> "" ->
   decimalSyntax (Get params limitKey) = false ->
   exists err, getLimit Quote params = ("", 0, Some err))
  /\ (Get params startTimeKey = "" ->
      Get params timeRangeKey <> "" ->
      decimalSyntax (Get params timeRangeKey) = false ->
      exists err, getStartTime Quote now params = ("", Some err)).
Proof.
  split.
  - intros Hfull Hsyntax.
    destruct (ParseInt (Get params limitKey)) as [v [err|]] eqn:Hparse.
    + rewrite (getLimit_invalid Quote params v err Hfull Hparse). eauto.
    + apply ParseInt_decimalSyntax in Hparse. congruence.
  - intros Hstart Hfull Hsyntax.
    destruct (ParseInt (Get params timeRangeKey)) as [v [err|]] eqn:Hparse.
    + rewrite (getStartTime_invalid Quote now params v err Hstart Hfull
                 Hparse). eauto.
    + apply ParseInt_decimalSyntax in Hparse. congruence.
Qed.

End Refused.

Lemma integers_outside_int64_refused_witness :
  Handler.getLimit Demo.quotePlain Demo.hugeLimit
  = ("", 0,
     Some (Go.errorString
             ("Could not parse limit: "
              +:+ Go.Error Demo.quotePlain
                    (Go.NumError "ParseInt" "9223372036854775808"
                                 Go.ErrRange)))).
Proof.
  apply (proj1 (integers_outside_int64_refused Demo.quotePlain 1700000000
                  Demo.hugeLimit 9223372036854775808
                  (or_intror (Z.le_refl _)))).
  reflexivity.
Defined.

Lemma integers_in_other_syntax_refused_witness :
  exists err,
    Handler.getLimit Demo.quotePlain Demo.badLimit = ("", 0, Some err).
Proof.
  apply (proj1 (integers_in_other_syntax_refused Demo.quotePlain 1700000000
                  Demo.badLimit)).
  - discriminate.
  - reflexivity.
Defined.
